(** * reddito: a shallow embedding of [fetch.py] and [merge.py]

    The development follows the two scripts of the repository.

    - [Py] holds the few Python notions both scripts rely on: exceptions
      as values, [str.strip], truthiness, and the values [json.load]
      produces.
    - [Merge] embeds [RedditDataMerger] of [merge.py].
    - [Fetch] embeds [RedditFetcher] of [fetch.py]: the tracker store,
      [save_post], the discovery loop of [collect_post_links], the
      extractors and the orchestration in [fetch_posts] and [main].

    The browser is not part of the repository.  It enters the embedding
    as an interface ([Surface]) for the stateful listing page, and as a
    snapshot of what each read of a rendered item page yields
    ([item_page], [comment_elem]).  Library functions whose output format plays no
    role ([hashlib.md5], [repr], [json.dumps], the clock) are section
    variables.

    Conventions.  A Python [str] is a Rocq [string] whose characters are
    the code points below 256.  Integers are [Z].  Interrupts
    ([KeyboardInterrupt]) are asynchronous and are left out: every
    exception below is a subclass of [Exception]. *)

From Stdlib Require Import ZArith List String Ascii Bool Lia.
From stdpp Require Import base option list gmap sets strings.

Set Warnings "-register-all".

(** ** Python preliminaries *)

Module Py.

(** The exception classes the [except] clauses of the two scripts tell
    apart, and one constructor for each remaining family. *)
Inductive exn : Type :=
  | NoSuchElementException
  | StaleElementReferenceException
  | WebDriverException
  | TypeError
  | AttributeError
  | JSONDecodeError
  | OSError
  | EOFError.

(** The outcome of a call that may raise. *)
Inductive result (A : Type) : Type :=
  | Ok (a : A)
  | Raise (e : exn).
Arguments Ok {A} a.
Arguments Raise {A} e.

Definition bind {A B : Type} (r : result A) (k : A -> result B) : result B :=
  match r with
  | Ok a => k a
  | Raise e => Raise e
  end.

Definition is_ok {A : Type} (r : result A) : bool :=
  match r with Ok _ => true | Raise _ => false end.

(** [except NoSuchElementException] *)
Definition is_no_such_element (e : exn) : bool :=
  match e with NoSuchElementException => true | _ => false end.

(** [except (StaleElementReferenceException, NoSuchElementException)] *)
Definition is_stale_or_no_such (e : exn) : bool :=
  match e with
  | NoSuchElementException | StaleElementReferenceException => true
  | _ => false
  end.

(** [c.isspace()] on the code points below 256. *)
Definition isspace (c : ascii) : bool :=
  let n := nat_of_ascii c in
  ((9 <=? n)%nat && (n <=? 13)%nat) || ((28 <=? n)%nat && (n <=? 32)%nat)
  || (n =? 133)%nat || (n =? 160)%nat.

Fixpoint lstrip (s : string) : string :=
  match s with
  | EmptyString => EmptyString
  | String c s' => if isspace c then lstrip s' else s
  end.

Fixpoint rstrip (s : string) : string :=
  match s with
  | EmptyString => EmptyString
  | String c s' =>
      match rstrip s' with
      | EmptyString => if isspace c then EmptyString else String c EmptyString
      | t => String c t
      end
  end.

(** [s.strip()] *)
Definition strip (s : string) : string := rstrip (lstrip s).

(** A string without white space at either end. *)
Definition tidy (s : string) : Prop := lstrip s = s /\ rstrip s = s.

(** [bool(s)] for a string. *)
Definition str_truthy (s : string) : bool :=
  match s with EmptyString => false | _ => true end.

(** [bool(x)] for an optional string ([None] or a [str]). *)
Definition opt_truthy (o : option string) : bool :=
  match o with Some s => str_truthy s | None => false end.

(** ['\n'.join(parts)] *)
Fixpoint join_lines (parts : list string) : string :=
  match parts with
  | [] => EmptyString
  | [p] => p
  | p :: rest => p +:+ String (ascii_of_nat 10) (join_lines rest)
  end.

(** The values [json.load] returns.  JSON numbers are the integers;
    a [dict] is kept as the list of its items, keys distinct. *)
Inductive json : Type :=
  | JNull
  | JBool (b : bool)
  | JInt (n : Z)
  | JStr (s : string)
  | JList (l : list json)
  | JDict (d : list (string * json)).

(** [bool(v)] *)
Definition truthy (v : json) : bool :=
  match v with
  | JNull => false
  | JBool b => b
  | JInt n => negb (n =? 0)%Z
  | JStr s => str_truthy s
  | JList l => match l with [] => false | _ => true end
  | JDict d => match d with [] => false | _ => true end
  end.

(** [len(v)]: a [TypeError] on a value that has no length. *)
Definition len (v : json) : result nat :=
  match v with
  | JStr s => Ok (String.length s)
  | JList l => Ok (length l)
  | JDict d => Ok (length d)
  | JNull | JBool _ | JInt _ => Raise TypeError
  end.

Fixpoint assoc (k : string) (d : list (string * json)) : option json :=
  match d with
  | [] => None
  | (k', v) :: d' => if String.eqb k k' then Some v else assoc k d'
  end.

(** [data.get(key)]: [None] for a missing key, an [AttributeError] when
    [data] is not a [dict]. *)
Definition get (data : json) (key : string) : result json :=
  match data with
  | JDict d => Ok (default JNull (assoc key d))
  | _ => Raise AttributeError
  end.

End Py.

Import Py.

(** ** merge.py *)

Module Merge.

(** One row of the output table, in the order of [fieldnames]. *)
Record record : Type := Record_ {
  auto_id : Z;
  category : string;
  title : string;
  description : string;
  votes : string;
  comments : string;
  url : string
}.

Section Flattener.

(** [repr] and [json.dumps(_, ensure_ascii=False)] of the Python
    library. *)
Variable repr : json -> string.
Variable json_dumps : json -> result string.

(** [str(v)]: a string is its own text, anything else prints as its
    [repr]. *)
Definition str (v : json) : string :=
  match v with
  | JStr s => s
  | _ => repr v
  end.

(** [RedditDataMerger._comments_to_json_string] *)
Definition _comments_to_json_string (comments : json) : result string :=
  match comments with
  | JNull => Ok "[]"
  | _ =>
      if negb (truthy comments) then Ok "[]"
      else
        bind (len comments) (fun n =>
        if (n =? 0)%nat then Ok "[]"
        else
          match json_dumps comments with
          | Ok s => Ok s
          | Raise _ => Ok "[]"
          end)
  end.

(** [RedditDataMerger._handle_null_value] *)
Definition _handle_null_value (value : json) (default : string) : string :=
  match value with
  | JNull => default
  | JStr s => if String.eqb (strip s) "" then default else strip s
  | JList l => if (length l =? 0)%nat then default else str value
  | JDict d => if (length d =? 0)%nat then default else str value
  | _ => str value
  end.

(** The values the flattener treats as missing: [None], a string of
    white space only, an empty list or dictionary. *)
Definition blank (value : json) : bool :=
  match value with
  | JNull => true
  | JStr s => String.eqb (strip s) ""
  | JList l => (length l =? 0)%nat
  | JDict d => (length d =? 0)%nat
  | _ => false
  end.

(** The [try] block of [_process_json_file], after [json.load]
    returned [data]. *)
Definition build_record (next : Z) (cat : string) (data : json) : result record :=
  bind (get data "title") (fun t =>
  bind (get data "description") (fun d =>
  bind (get data "votes") (fun v =>
  bind (get data "comments") (fun c =>
  bind (_comments_to_json_string c) (fun cs =>
  bind (get data "url") (fun u =>
  Ok {| auto_id := next;
        category := cat;
        title := _handle_null_value t "";
        description := _handle_null_value d "";
        votes := _handle_null_value v "";
        comments := cs;
        url := _handle_null_value u "" |})))))).

(** [RedditDataMerger._process_json_file]: [loaded] is the outcome of
    opening and parsing the file; the result pairs the row (or [None])
    with the value of [self.auto_id] afterwards. *)
Definition _process_json_file (next : Z) (loaded : result json) (cat : string)
  : option record * Z :=
  match bind loaded (build_record next cat) with
  | Ok r => (Some r, (next + 1)%Z)
  | Raise _ => (None, next)
  end.

End Flattener.

(** [RedditDataMerger._scan_category_folder] over the parsed [*.json]
    files of one folder, in the order of [sorted], tracker files already
    filtered out: the rows appended to [self.records], the number of
    files processed and [self.auto_id] afterwards. *)
Fixpoint _scan_category_folder (repr : json -> string) (json_dumps : json -> result string)
    (next : Z) (files : list (result json)) (cat : string) : list record * Z * Z :=
  match files with
  | [] => ([], 0%Z, next)
  | f :: rest =>
      match _process_json_file repr json_dumps next f cat with
      | (Some r, next') =>
          let '(rs, n, last) := _scan_category_folder repr json_dumps next' rest cat in
          (r :: rs, (n + 1)%Z, last)
      | (None, next') => _scan_category_folder repr json_dumps next' rest cat
      end
  end.

(** [RedditDataMerger.write_csv]: [written] tells whether writing the
    output file went through. *)
Definition write_csv (records : list record) (written : bool) : bool :=
  match records with
  | [] => false
  | _ => written
  end.

(** [RedditDataMerger.run]: [scanned] is [None] when the data directory
    does not exist, and otherwise what [merge_data] collected (rows and
    their number). *)
Definition run (scanned : option (list record * Z)) (written : bool) : bool :=
  let total := match scanned with None => 0%Z | Some (_, n) => n end in
  let records := match scanned with None => [] | Some (rs, _) => rs end in
  if (total =? 0)%Z then false else write_csv records written.

(** The outcome of [parser.parse_args()]: [argparse] leaves the process
    with status 2 on a malformed command line, and with status 0 after
    printing the help text for [-h] or [--help]. *)
Inductive parsed (A : Type) : Type :=
  | Usage_error
  | Help
  | Args (a : A).
Arguments Usage_error {A}.
Arguments Help {A}.
Arguments Args {A} a.

(** [main] of merge.py: the exit status. *)
Definition main (args : parsed (string * string)) (scanned : option (list record * Z))
    (written : bool) : Z :=
  match args with
  | Usage_error => 2%Z
  | Help => 0%Z
  | Args _ => if run scanned written then 0%Z else 1%Z
  end.

(** The two names [_scan_category_folder] filters out. *)
Definition tracker_names : list string := ["id_tracker.json"; "hash_tracker.json"].

Definition is_tracker (name : string) : bool :=
  existsb (String.eqb name) tracker_names.

(** A folder as [category_path.glob('*.json')] shows it, in the order of
    [sorted]: the name of each file and the outcome of loading it. *)
Definition listing : Type := list (string * result json).

(** [[f for f in json_files if f.name not in [...]]] *)
Definition without_trackers (json_files : listing) : list (result json) :=
  map snd (List.filter (fun f => negb (is_tracker (fst f))) json_files).

(** [_scan_category_folder] from the listing of the folder. *)
Definition scan_folder (repr : json -> string) (json_dumps : json -> result string)
    (next : Z) (json_files : listing) (cat : string) : list record * Z * Z :=
  _scan_category_folder repr json_dumps next (without_trackers json_files) cat.

(** A community folder: its name, its sub-directories in the order of
    [sorted] with their listings, and its own listing. *)
Record community : Type := Community {
  community_name : string;
  category_folders : list (string * listing);
  own_files : listing
}.

(** [for category_folder in sorted(category_folders): ...] *)
Fixpoint scan_categories (repr : json -> string) (json_dumps : json -> result string)
    (next : Z) (cats : list (string * listing)) : list record * Z * Z :=
  match cats with
  | [] => ([], 0%Z, next)
  | (category_name, json_files) :: rest =>
      let '(rs, processed, next') :=
        scan_folder repr json_dumps next json_files category_name in
      let '(rs', total, last) := scan_categories repr json_dumps next' rest in
      (rs ++ rs', (processed + total)%Z, last)
  end.

(** The body of [for community_folder in sorted(community_folders)]. *)
Definition scan_community (repr : json -> string) (json_dumps : json -> result string)
    (next : Z) (c : community) : list record * Z * Z :=
  match category_folders c with
  | [] => scan_folder repr json_dumps next (own_files c) (community_name c)
  | cats => scan_categories repr json_dumps next cats
  end.

Fixpoint scan_communities (repr : json -> string) (json_dumps : json -> result string)
    (next : Z) (cs : list community) : list record * Z * Z :=
  match cs with
  | [] => ([], 0%Z, next)
  | c :: rest =>
      let '(rs, processed, next') := scan_community repr json_dumps next c in
      let '(rs', total, last) := scan_communities repr json_dumps next' rest in
      (rs ++ rs', (processed + total)%Z, last)
  end.

(** [RedditDataMerger.merge_data] on a merger fresh from [__init__]
    ([auto_id] is 1, [records] is empty): [root] is [None] when the data
    directory does not exist and otherwise lists its sub-directories in
    the order of [sorted].  The result is [self.records] with the total
    returned, [None] standing for the early [return 0]. *)
Definition merge_data (repr : json -> string) (json_dumps : json -> result string)
    (root : option (list community)) : option (list record * Z) :=
  match root with
  | None => None
  | Some cs =>
      let '(rs, total, _) := scan_communities repr json_dumps 1%Z cs in
      Some (rs, total)
  end.

(** The rows of a scan are numbered from [next] on, counted by the
    second component, and followed by the third. *)
Definition numbered (next : Z) (out : list record * Z * Z) : Prop :=
  map auto_id out.1.1 = seqZ next (Z.of_nat (length out.1.1))
  /\ out.1.2 = Z.of_nat (length out.1.1)
  /\ out.2 = (next + Z.of_nat (length out.1.1))%Z.

(** The category of a row: the name of a sub-directory of the community,
    or the name of a community that has no sub-directory. *)
Definition placed (c : community) (r : record) : Prop :=
  (category_folders c = [] /\ category r = community_name c)
  \/ exists files, (category r, files) ∈ category_folders c.

(** A value under ['comments'] on which [len] raises. *)
Definition unsized (c : json) : bool :=
  match c with
  | JBool b => b
  | JInt n => negb (n =? 0)%Z
  | _ => false
  end.

(** A file [_process_json_file] turns into a row: it loads, holds an
    object, and what it has under ['comments'] is not a number other
    than zero nor [true]. *)
Definition usable (loaded : result json) : bool :=
  match loaded with
  | Ok (JDict d) => negb (unsized (default JNull (assoc "comments" d)))
  | _ => false
  end.

End Merge.

(** ** fetch.py *)

Module Fetch.

(** *** Data *)

(** An entry of the list [collect_post_links] returns:
    [{'url': link, 'votes_preview': ...}]. *)
Record link_info : Type := Link_info {
  url : string;
  votes_preview : option string
}.

(** A comment node: [{'text': ..., 'votes': ..., 'replies': [...]}]. *)
Inductive comment : Type :=
  | Comment (text : option string) (score : option string) (replies : list comment).

Definition replies_of (c : comment) : list comment :=
  match c with Comment _ _ rs => rs end.

(** The dictionary [post_data]; ['id'] is absent until [save_post] sets
    it. *)
Record post_data : Type := Post_data {
  post_url : string;
  hash : string;
  scraped_at : string;
  title : option string;
  description : option string;
  votes : option string;
  comments : list comment;
  id : option Z
}.

Definition set_id (p : post_data) (n : Z) : post_data :=
  {| post_url := post_url p; hash := hash p; scraped_at := scraped_at p;
     title := title p; description := description p; votes := votes p;
     comments := comments p; id := Some n |}.

(** *** The tracker store and [save_post] *)

(** A file of the scope's directory that holds JSON: absent, present
    with text that does not parse (what a write that failed midway
    leaves), or present with a parsed content. *)
Inductive file (A : Type) : Type :=
  | Missing
  | Garbled
  | Holds (a : A).
Arguments Missing {A}.
Arguments Garbled {A}.
Arguments Holds {A} a.

(** How [with open(path, 'w') as f: json.dump(obj, f)] ends: it goes
    through, [open] raises and the file is untouched, or the dump raises
    after [open] truncated the file. *)
Inductive write_outcome : Type :=
  | Written
  | Open_fails
  | Dump_fails.

Definition write_file {A : Type} (w : write_outcome) (old : file A) (new : A)
    : result unit * file A :=
  match w with
  | Written => (Ok tt, Holds new)
  | Open_fails => (Raise OSError, old)
  | Dump_fails => (Raise OSError, Garbled)
  end.

(** The fetcher's attributes [next_id] and [collected_hashes], and the
    files of [community_dir]: the item files ["<id>.json"] by id, the
    object in ["id_tracker.json"] as the value of its key ['next_id'] (if
    it has the key), and the object in ["hash_tracker.json"] as the value
    of its key ['hashes']. *)
Record state : Type := State {
  next_id : Z;
  collected_hashes : gset string;
  item_files : gmap Z (file post_data);
  id_tracker_file : file (option Z);
  hash_tracker_file : file (option (list string))
}.

Definition item_file (s : state) (n : Z) : file post_data :=
  default Missing (item_files s !! n).

(** [RedditFetcher._load_next_id] *)
Definition _load_next_id (f : file (option Z)) : result Z :=
  match f with
  | Missing => Ok 1%Z
  | Garbled => Raise JSONDecodeError
  | Holds data => Ok (default 1%Z data)
  end.

(** [RedditFetcher._load_collected_hashes] *)
Definition _load_collected_hashes (f : file (option (list string))) : result (gset string) :=
  match f with
  | Missing => Ok ∅
  | Garbled => Raise JSONDecodeError
  | Holds data => Ok (list_to_set (default [] data))
  end.

(** The last four lines of [RedditFetcher._setup_community_dir]: both
    attributes are read back from the tracker files. *)
Definition _setup_community_dir (s : state) : result state :=
  bind (_load_next_id (id_tracker_file s)) (fun n =>
  bind (_load_collected_hashes (hash_tracker_file s)) (fun hs =>
  Ok {| next_id := n; collected_hashes := hs; item_files := item_files s;
        id_tracker_file := id_tracker_file s;
        hash_tracker_file := hash_tracker_file s |})).

(** [RedditFetcher._save_next_id] *)
Definition _save_next_id (w : write_outcome) (s : state) : result unit * state :=
  let '(r, f) := write_file w (id_tracker_file s) (Some (next_id s)) in
  (r, {| next_id := next_id s; collected_hashes := collected_hashes s;
         item_files := item_files s; id_tracker_file := f;
         hash_tracker_file := hash_tracker_file s |}).

(** [RedditFetcher._save_collected_hashes] *)
Definition _save_collected_hashes (w : write_outcome) (s : state) : result unit * state :=
  let '(r, f) := write_file w (hash_tracker_file s) (Some (elements (collected_hashes s))) in
  (r, {| next_id := next_id s; collected_hashes := collected_hashes s;
         item_files := item_files s; id_tracker_file := id_tracker_file s;
         hash_tracker_file := f |}).

(** The outcomes of the three writes of one [save_post] call. *)
Record faults : Type := Faults {
  on_item : write_outcome;
  on_id_tracker : write_outcome;
  on_hash_tracker : write_outcome
}.

Definition no_fault : faults :=
  {| on_item := Written; on_id_tracker := Written; on_hash_tracker := Written |}.

(** The write of the item file in [save_post]. *)
Definition write_item (w : write_outcome) (s : state) (n : Z) (p : post_data)
    : result unit * state :=
  let '(r, f) := write_file w (item_file s n) p in
  (r, {| next_id := next_id s; collected_hashes := collected_hashes s;
         item_files := match f with
                       | Missing => item_files s
                       | _ => <[n := f]> (item_files s)
                       end;
         id_tracker_file := id_tracker_file s;
         hash_tracker_file := hash_tracker_file s |}).

(** The two assignments under [# Update trackers]. *)
Definition commit (p : post_data) (s : state) : state :=
  {| next_id := (next_id s + 1)%Z;
     collected_hashes := {[hash p]} ∪ collected_hashes s;
     item_files := item_files s; id_tracker_file := id_tracker_file s;
     hash_tracker_file := hash_tracker_file s |}.

(** [RedditFetcher.save_post]: the id used, or the exception, and the
    state the call leaves.  The third debug line slices
    [post_data.get('title', 'N/A')], which is [None] for an item
    extracted without a title. *)
Definition save_post (w : faults) (p : post_data) (s : state) : result Z * state :=
  let post_id := next_id s in
  match title p with
  | None => (Raise TypeError, s)
  | Some _ =>
      match write_item (on_item w) s post_id (set_id p post_id) with
      | (Raise e, s1) => (Raise e, s1)
      | (Ok _, s1) =>
          let s2 := commit p s1 in
          match _save_next_id (on_id_tracker w) s2 with
          | (Raise e, s3) => (Raise e, s3)
          | (Ok _, s3) =>
              match _save_collected_hashes (on_hash_tracker w) s3 with
              | (Raise e, s4) => (Raise e, s4)
              | (Ok _, s4) => (Ok post_id, s4)
              end
          end
      end
  end.

(** A history of one scope: calls of [save_post], and restarts of the
    program, which read the trackers again. *)
Inductive op : Type :=
  | Save (w : faults) (p : post_data)
  | Restart.

(** The step writes both tracker files in full whenever it gets to
    them. *)
Definition trackers_written (o : op) : Prop :=
  match o with
  | Save w _ => on_id_tracker w = Written /\ on_hash_tracker w = Written
  | Restart => True
  end.

(** The step hands out an id: the item has a title and the three
    writes go through. *)
Definition goes_through (o : op) : Prop :=
  match o with
  | Save w p => w = no_fault /\ title p <> None
  | Restart => True
  end.

(** The number of [save_post] calls in a history. *)
Fixpoint saves (ops : list op) : nat :=
  match ops with
  | [] => 0%nat
  | Save _ _ :: rest => S (saves rest)
  | Restart :: rest => saves rest
  end.

(** The counter in memory is the one a restart would read. *)
Definition in_step (s : state) : Prop :=
  _load_next_id (id_tracker_file s) = Ok (next_id s).

(** No item file at or above the counter holds a record. *)
Definition unused_above (s : state) : Prop :=
  forall n p, (next_id s <= n)%Z -> item_file s n <> Holds p.

(** The ids the successful [save_post] calls of a history returned, in
    order, and the final state.  A restart that cannot read a tracker
    ends the history. *)
Fixpoint history (ops : list op) (s : state) : list Z * state :=
  match ops with
  | [] => ([], s)
  | Save w p :: rest =>
      match save_post w p s with
      | (Ok n, s') => let '(ids, s'') := history rest s' in (n :: ids, s'')
      | (Raise _, s') => history rest s'
      end
  | Restart :: rest =>
      match _setup_community_dir s with
      | Ok s' => history rest s'
      | Raise _ => ([], s)
      end
  end.

(** *** The discovery loop of [collect_post_links] *)

(** The listing page as the loop uses it.  [surface] is the state of the
    page; reads leave it as it is, scrolling (with the pause after it)
    moves it on. *)
Class Surface : Type := {
  surface : Type;
  (** a [shreddit-post] element *)
  container : Type;
  (** [driver.find_elements(By.TAG_NAME, 'shreddit-post')] *)
  find_elements : surface -> result (list container);
  (** [container.find_element(By.CSS_SELECTOR, 'a[slot="full-post-link"]')
      .get_attribute('href')] *)
  get_href : surface -> container -> result (option string);
  (** [driver.execute_script("return document.body.scrollHeight")] *)
  scroll_height : surface -> result Z;
  (** [driver.execute_script("window.scrollTo(0, document.body.scrollHeight);")]
      followed by [time.sleep] *)
  scroll_to : surface -> result unit * surface
}.

(** What the loop did to the page, in order: an [href] it read, a call
    of [scroll_and_wait]. *)
Inductive event : Type :=
  | Ev_href (link : option string)
  | Ev_scroll.

(** The variables of the loop, the page, and the record of events. *)
Record vars `{Surface} : Type := Vars {
  page : surface;
  collected_links : list link_info;
  seen_links : gset string;
  scroll_attempts : Z;
  log : list event
}.

Inductive flow : Type :=
  | Continue
  | Break.

Definition max_scroll_attempts : Z := 50.

(** The number of [scroll_and_wait] calls in a record of events. *)
Definition is_scroll (e : event) : bool :=
  match e with Ev_scroll => true | Ev_href _ => false end.

Definition scrolls (l : list event) : nat := length (List.filter is_scroll l).

(** The links among the [href]s read, in the order they were read. *)
Fixpoint hrefs (l : list event) : list string :=
  match l with
  | [] => []
  | Ev_href (Some link) :: rest => link :: hrefs rest
  | _ :: rest => hrefs rest
  end.

(** A list without the later repetitions of its elements. *)
Fixpoint first_occurrences (l : list string) : list string :=
  match l with
  | [] => []
  | x :: rest =>
      x :: List.filter (fun y => negb (String.eqb y x)) (first_occurrences rest)
  end.

(** A link the loop is after: not empty, and its fingerprint is not in
    the set loaded at setup. *)
Definition unseen (_generate_hash : string -> string) (hashes : gset string)
    (link : string) : bool :=
  str_truthy link && negb (bool_decide (_generate_hash link ∈ hashes)).

Section Discovery.

Context `{Surface}.

(** [RedditFetcher._generate_hash]: [hashlib.md5(...).hexdigest()]. *)
Variable _generate_hash : string -> string.

(** [self.collected_hashes] and the argument [count]. *)
Variable collected_hashes : gset string.
Variable count : Z.

Definition init (pg : surface) : vars :=
  {| page := pg; collected_links := []; seen_links := ∅;
     scroll_attempts := 0; log := [] |}.

Definition record_event (e : event) (v : vars) : vars :=
  {| page := page v; collected_links := collected_links v;
     seen_links := seen_links v; scroll_attempts := scroll_attempts v;
     log := log v ++ [e] |}.

Definition set_page (pg : surface) (v : vars) : vars :=
  {| page := pg; collected_links := collected_links v;
     seen_links := seen_links v; scroll_attempts := scroll_attempts v;
     log := log v |}.

(** [collected_links.append(...)] and [seen_links.add(link)] *)
Definition collect (link : string) (v : vars) : vars :=
  {| page := page v;
     collected_links :=
       collected_links v ++ [{| url := link; votes_preview := None |}];
     seen_links := {[link]} ∪ seen_links v;
     scroll_attempts := scroll_attempts v; log := log v |}.

(** [scroll_attempts += 1] *)
Definition count_attempt (v : vars) : vars :=
  {| page := page v; collected_links := collected_links v;
     seen_links := seen_links v;
     scroll_attempts := (scroll_attempts v + 1)%Z; log := log v |}.

(** [len(collected_links) >= count] *)
Definition enough (v : vars) : bool :=
  (count <=? Z.of_nat (length (collected_links v)))%Z.

(** The body of [for container in post_containers]: [Break] and
    [Continue] for the loop, or the exception that leaves it. *)
Definition visit (c : container) (v : vars) : result flow * vars :=
  match get_href (page v) c with
  | Raise e =>
      if is_stale_or_no_such e then (Ok Continue, v) else (Raise e, v)
  | Ok link =>
      let v := record_event (Ev_href link) v in
      match link with
      | Some l =>
          if str_truthy l && negb (bool_decide (l ∈ seen_links v)) then
            if bool_decide (_generate_hash l ∈ collected_hashes) then (Ok Continue, v)
            else
              let v := collect l v in
              if enough v then (Ok Break, v) else (Ok Continue, v)
          else (Ok Continue, v)
      | None => (Ok Continue, v)
      end
  end.

(** [for container in post_containers: ...] *)
Fixpoint scan (cs : list container) (v : vars) : result unit * vars :=
  match cs with
  | [] => (Ok tt, v)
  | c :: rest =>
      match visit c v with
      | (Ok Continue, v') => scan rest v'
      | (Ok Break, v') => (Ok tt, v')
      | (Raise e, v') => (Raise e, v')
      end
  end.

(** [RedditFetcher.scroll_and_wait] *)
Definition scroll_and_wait (v : vars) : result bool * vars :=
  let v := record_event Ev_scroll v in
  match scroll_height (page v) with
  | Raise e => (Raise e, v)
  | Ok last_height =>
      match scroll_to (page v) with
      | (Raise e, pg) => (Raise e, set_page pg v)
      | (Ok _, pg) =>
          let v := set_page pg v in
          match scroll_height pg with
          | Raise e => (Raise e, v)
          | Ok new_height => (Ok (negb (new_height =? last_height)%Z), v)
          end
      end
  end.

(** The [try] block of the [while] loop. *)
Definition attempt (v : vars) : result flow * vars :=
  match find_elements (page v) with
  | Raise e => (Raise e, v)
  | Ok post_containers =>
      match scan post_containers v with
      | (Raise e, v) => (Raise e, v)
      | (Ok _, v) =>
          if enough v then (Ok Break, v)
          else
            match scroll_and_wait v with
            | (Raise e, v) => (Raise e, v)
            | (Ok has_more_content, v) =>
                let v := count_attempt v in
                if negb has_more_content then (Ok Break, v) else (Ok Continue, v)
            end
      end
  end.

(** One pass through the body of the [while] loop, [except] clause
    included. *)
Definition iteration (v : vars) : flow * vars :=
  match attempt v with
  | (Ok f, v') => (f, v')
  | (Raise _, v') => (Continue, count_attempt v')
  end.

(** [len(collected_links) < count and scroll_attempts < max_scroll_attempts] *)
Definition guard (v : vars) : bool :=
  (Z.of_nat (length (collected_links v)) <? count)%Z
  && (scroll_attempts v <? max_scroll_attempts)%Z.

(** The [while] loop, unrolled at most [fuel] times: [None] when the
    loop would go on after that. *)
Fixpoint while_loop (fuel : nat) (v : vars) : option vars :=
  if guard v then
    match fuel with
    | O => None
    | S fuel' =>
        match iteration v with
        | (Break, v') => Some v'
        | (Continue, v') => while_loop fuel' v'
        end
    end
  else Some v.

(** The links collected so far. *)
Definition urls (v : vars) : list string := map url (collected_links v).

(** What the loop maintains: the links collected are the first
    occurrences of the unseen links among the [href]s read, in that
    order; [seen_links] holds exactly these; no entry carries a
    preview; there are at most [count] of them, and when there are
    [count] the last thing the loop did was to read the last of
    them. *)
Definition consistent (v : vars) : Prop :=
  urls v
  = first_occurrences (List.filter (unseen _generate_hash collected_hashes) (hrefs (log v)))
  /\ (forall l, l ∈ seen_links v <-> l ∈ urls v)
  /\ Forall (fun li => votes_preview li = None) (collected_links v)
  /\ (Z.of_nat (length (collected_links v)) <= count)%Z
  /\ (Z.of_nat (length (collected_links v)) = count ->
      exists l' li, log v = l' ++ [Ev_href (Some (url li))]
                    /\ last (collected_links v) = Some li).

(** There is room for another link. *)
Definition room (v : vars) : Prop :=
  (Z.of_nat (length (collected_links v)) < count)%Z.

(** The attempt counter stays within the cap and bounds the number of
    scroll cycles. *)
Definition bounded (v : vars) : Prop :=
  (Z.of_nat (scrolls (log v)) <= scroll_attempts v)%Z
  /\ (scroll_attempts v <= max_scroll_attempts)%Z.

(** A container whose read does not leave the [for] loop. *)
Definition readable (pg : surface) (c : container) : bool :=
  match get_href pg c with
  | Ok _ => true
  | Raise e => is_stale_or_no_such e
  end.

(** The links the containers of a page show, in order. *)
Fixpoint visible (pg : surface) (cs : list container) : list string :=
  match cs with
  | [] => []
  | c :: rest =>
      match get_href pg c with
      | Ok (Some link) => link :: visible pg rest
      | _ => visible pg rest
      end
  end.

(** [l[:n]] *)
Definition slice_to {A : Type} (l : list A) (n : Z) : list A :=
  if (0 <=? n)%Z then take (Z.to_nat n) l
  else take (Z.to_nat (Z.of_nat (length l) + n)) l.

(** Lines 185 to 234 of [collect_post_links], from the page as it is
    after the manual pause: the list returned and the final variables,
    or [None] when fifty unrollings do not end the loop. *)
Definition collect_post_links (pg : surface) : option (list link_info * vars) :=
  match while_loop (Z.to_nat max_scroll_attempts) (init pg) with
  | Some v => Some (slice_to (collected_links v) count, v)
  | None => None
  end.

End Discovery.

(** *** The item page and its comment tree *)

(** A [faceplate-number] element: what reading its text and its
    [number] attribute yields. *)
Record vote_elem : Type := Vote_elem {
  vote_text : result string;
  number_attr : result (option string)
}.

(** A [div] of paragraphs: [find_elements(By.TAG_NAME, 'p')] with the
    text of each [p], and the text of the [div] itself. *)
Record body_elem : Type := Body_elem {
  paragraphs : result (list (result string));
  body_text : result string
}.

(** A [shreddit-comment] element: the outcome of looking up its
    [div[slot="comment"]], its [faceplate-number] and its child
    [shreddit-comment] elements. *)
Inductive comment_elem : Type :=
  | Comment_elem (body : result body_elem) (faceplate : result vote_elem)
      (nested : result (list comment_elem)).

(** The [shreddit-post] element of an item page. *)
Record post_elem : Type := Post_elem {
  post_faceplate : result vote_elem;
  score_attr : result (option string)
}.

(** An item page, as what each step of [extract_post_data] yields at the
    moment the function takes it. *)
Record item_page : Type := Item_page {
  (** [find_element(By.CSS_SELECTOR, 'h1[slot="title"]').text] *)
  h1_title : result string;
  (** [find_element(By.CSS_SELECTOR, 'div[slot="text-body"]')] *)
  text_body : result body_elem;
  (** the [faceplate-number] of the [seeker-post-info-row] *)
  seeker_votes : result vote_elem;
  (** [find_element(By.TAG_NAME, 'shreddit-post')] *)
  shreddit_post : result post_elem;
  (** the five [scroll_and_wait(1.5)] before the comments are read *)
  load_comments : result unit;
  (** [find_element(By.TAG_NAME, 'shreddit-comment-tree')
      .find_elements(By.XPATH, './shreddit-comment')] *)
  comment_tree : result (list comment_elem);
  (** [driver.close()] and the switch back to the first window *)
  close_tab : result unit
}.

(** [[p.text.strip() for p in paragraphs if p.text.strip()]] *)
Fixpoint paragraph_texts (ps : list (result string)) : result (list string) :=
  match ps with
  | [] => Ok []
  | p :: rest =>
      bind p (fun t =>
      bind (paragraph_texts rest) (fun ts =>
      if str_truthy (strip t) then Ok (strip t :: ts) else Ok ts))
  end.

(** [except NoSuchElementException: post_data[field] = None] around a
    block that yields the field. *)
Definition absent_is_none (r : result string) : result (option string) :=
  match r with
  | Ok s => Ok (Some s)
  | Raise e => if is_no_such_element e then Ok None else Raise e
  end.

(** [# Extract title] *)
Definition read_title (pg : item_page) : result (option string) :=
  absent_is_none (bind (h1_title pg) (fun t => Ok (strip t))).

(** [# Extract description/body] *)
Definition read_description (pg : item_page) : result (option string) :=
  absent_is_none
    (bind (text_body pg) (fun body_div =>
     bind (paragraphs body_div) (fun ps =>
     bind (paragraph_texts ps) (fun ts => Ok (join_lines ts))))).

(** [vote_count = vote_element.text.strip()] and, when that is empty,
    [vote_count = vote_element.get_attribute('number')]: how the two
    lines end, and [vote_count] afterwards. *)
Definition read_faceplate (ve : vote_elem) (vote_count : option string)
    : result unit * option string :=
  match vote_text ve with
  | Raise e => (Raise e, vote_count)
  | Ok t =>
      let vote_count := Some (strip t) in
      if opt_truthy vote_count then (Ok tt, vote_count)
      else
        match number_attr ve with
        | Raise e => (Raise e, vote_count)
        | Ok a => (Ok tt, a)
        end
  end.

(** [# Method 3], with its bare [except]. *)
Definition method_3 (pg : item_page) (vote_count : option string) : option string :=
  match bind (shreddit_post pg) score_attr with
  | Ok a => a
  | Raise _ => vote_count
  end.

(** [# Method 2] and its [except NoSuchElementException]. *)
Definition method_2 (pg : item_page) (vote_count : option string)
    : result (option string) :=
  let '(r, vote_count) :=
    match bind (shreddit_post pg) post_faceplate with
    | Raise e => (Raise e, vote_count)
    | Ok ve => read_faceplate ve vote_count
    end in
  match r with
  | Ok _ => Ok vote_count
  | Raise e => if is_no_such_element e then Ok (method_3 pg vote_count) else Raise e
  end.

(** [# Method 1] and its [except NoSuchElementException]: the value of
    [vote_count] at [post_data['votes'] = vote_count], or the exception
    that reaches the outer [except]. *)
Definition method_1 (pg : item_page) : result (option string) :=
  let '(r, vote_count) :=
    match seeker_votes pg with
    | Raise e => (Raise e, None)
    | Ok ve => read_faceplate ve None
    end in
  match r with
  | Ok _ => Ok vote_count
  | Raise e => if is_no_such_element e then method_2 pg vote_count else Raise e
  end.

(** [# Extract votes from the individual post page]: the value stored
    under ['votes']. *)
Definition read_votes (pg : item_page) (votes_preview : option string) : option string :=
  match method_1 pg with
  | Ok vote_count => vote_count
  | Raise _ => votes_preview
  end.

(** [# Extract comment text] *)
Definition comment_text (body : result body_elem) : result (option string) :=
  absent_is_none
    (bind body (fun comment_body =>
     bind (paragraphs comment_body) (fun ps =>
     bind (paragraph_texts ps) (fun ts =>
     let text := join_lines ts in
     if str_truthy text then Ok text
     else bind (body_text comment_body) (fun t => Ok (strip t)))))).

(** [# Extract votes] of a comment *)
Definition comment_votes (faceplate : result vote_elem) : result (option string) :=
  absent_is_none
    (bind faceplate (fun vote_element =>
     bind (number_attr vote_element) (fun number =>
     bind (if opt_truthy number then Ok (default EmptyString number)
           else vote_text vote_element) (fun vote_text =>
     Ok (strip vote_text))))).

(** [RedditFetcher._extract_single_comment] *)
Fixpoint _extract_single_comment (comment_element : comment_elem) : option comment :=
  match comment_element with
  | Comment_elem body faceplate nested =>
      match comment_text body with
      | Raise _ => None
      | Ok text =>
          match comment_votes faceplate with
          | Raise _ => None
          | Ok score =>
              let replies :=
                match nested with
                | Ok nested_comments =>
                    omap _extract_single_comment nested_comments
                | Raise _ => []
                end in
              Some (Comment text score replies)
          end
      end
  end.

(** [RedditFetcher.extract_comments] *)
Definition extract_comments (pg : item_page) : list comment :=
  match comment_tree pg with
  | Ok top_level_comments => omap _extract_single_comment top_level_comments
  | Raise _ => []
  end.

(** [RedditFetcher.extract_post_data]: [loaded] is how opening the tab
    and loading [post_url] in it went, [now] the time stamp. *)
Definition extract_post_data (_generate_hash : string -> string) (now : string)
    (loaded : result item_page) (post_url : string) (votes_preview : option string)
    : option post_data :=
  match
    bind loaded (fun pg =>
    bind (read_title pg) (fun t =>
    bind (read_description pg) (fun d =>
    let v := read_votes pg votes_preview in
    bind (load_comments pg) (fun _ =>
    let cs := extract_comments pg in
    bind (close_tab pg) (fun _ =>
    Ok {| post_url := post_url; hash := _generate_hash post_url;
          scraped_at := now; title := t; description := d; votes := v;
          comments := cs; id := None |})))))
  with
  | Ok p => Some p
  | Raise _ => None
  end.

(** *** [fetch_posts] and [main] *)

(** How [setup_driver] ends: the driver runs, the call raised before
    [self.driver] was assigned, or it raised after ([maximize_window]). *)
Inductive startup : Type :=
  | Started
  | Not_started (e : exn)
  | Started_then (e : exn).

(** What a run meets besides the listing page. *)
Record session `{Surface} : Type := Session {
  setup_driver : startup;
  (** [driver.get(collection_url)], the pause and [input()]: the listing
      page they leave *)
  open_listing : result surface;
  (** a new tab with a link loaded in it *)
  open_item : string -> result item_page;
  (** the writes of the [save_post] call for a link *)
  disk : string -> faults;
  (** [driver.quit()] *)
  quit : result unit
}.

Section Orchestration.

Context `{Surface}.
Variable _generate_hash : string -> string.
Variable now : string.
Variable env : session.

(** [for i, post_info in enumerate(post_links, 1): ...]: the counters
    [successful] and [failed] at the end, or the exception [save_post]
    raised. *)
Fixpoint process (post_links : list link_info) (s : state) (successful failed : Z)
    : result (Z * Z) * state :=
  match post_links with
  | [] => (Ok (successful, failed), s)
  | post_info :: rest =>
      match extract_post_data _generate_hash now (open_item env (url post_info))
              (url post_info) (votes_preview post_info) with
      | Some p =>
          match save_post (disk env (url post_info)) p s with
          | (Ok _, s') => process rest s' (successful + 1)%Z failed
          | (Raise e, s') => (Raise e, s')
          end
      | None => process rest s successful (failed + 1)%Z
      end
  end.

(** The links of a batch whose extraction fails. *)
Definition unreadable (links : list link_info) : list link_info :=
  List.filter
    (fun li =>
       match extract_post_data _generate_hash now (open_item env (url li))
               (url li) (votes_preview li) with
       | Some _ => false
       | None => true
       end) links.

(** The [try] block of [fetch_posts] once the driver runs: the
    counters of the summary ([None] when the block returns early), or
    the exception handed to [except Exception].  The loop always ends
    within its fifty unrollings, so the first [None] branch is never
    taken. *)
Definition harvest (count : Z) (s : state) : result (option (Z * Z)) * state :=
  match _setup_community_dir s with
  | Raise e => (Raise e, s)
  | Ok s =>
      match open_listing env with
      | Raise e => (Raise e, s)
      | Ok pg =>
          match collect_post_links _generate_hash (collected_hashes s) count pg with
          | None => (Ok None, s)
          | Some ([], _) => (Ok None, s)
          | Some (post_links, _) =>
              match process post_links s 0 0 with
              | (Ok c, s') => (Ok (Some c), s')
              | (Raise e, s') => (Raise e, s')
              end
          end
      end
  end.

(** [RedditFetcher.fetch_posts]: the handlers swallow what the [try]
    block raises; the [finally] clause quits the driver if there is
    one, and what that raises leaves the function. *)
Definition fetch_posts (count : Z) (s : state) : result unit * state :=
  match setup_driver env with
  | Not_started _ => (Ok tt, s)
  | Started_then _ => (quit env, s)
  | Started => let '(_, s') := harvest count s in (quit env, s')
  end.

(** [main] of fetch.py: the exit status.  [constructed] is how
    [RedditFetcher(data_dir=...)] ended; an exception that leaves
    [main] ends the process with status 1. *)
Definition main (args : Merge.parsed (string * Z * string)) (constructed : result unit)
    (s : state) : Z * state :=
  match args with
  | Merge.Usage_error => (2%Z, s)
  | Merge.Help => (0%Z, s)
  | Merge.Args (collection_url, count, data_dir) =>
      if (count <=? 0)%Z then (1%Z, s)
      else
        match constructed with
        | Raise _ => (1%Z, s)
        | Ok _ =>
            match fetch_posts count s with
            | (Ok _, s') => (0%Z, s')
            | (Raise _, s') => (1%Z, s')
            end
        end
  end.

End Orchestration.

(** *** A listing that does not change

    The page shows a fixed list of links, every read goes through, and
    scrolling leaves the extent as it is. *)
Definition static_listing : Surface := {|
  surface := list string;
  container := string;
  find_elements := fun pg => Ok pg;
  get_href := fun _ c => Ok (Some c);
  scroll_height := fun _ => Ok 1000%Z;
  scroll_to := fun pg => (Ok tt, pg)
|}.

(** *** The scope of a collection URL *)


(** The longest prefix of [s] whose characters satisfy [f], and what
    follows it. *)
Fixpoint take_while (f : ascii -> bool) (s : string) : string :=
  match s with
  | EmptyString => EmptyString
  | String c s' => if f c then String c (take_while f s') else EmptyString
  end.

Fixpoint drop_while (f : ascii -> bool) (s : string) : string :=
  match s with
  | EmptyString => EmptyString
  | String c s' => if f c then drop_while f s' else s
  end.

(** What follows [p] in [s] when [s] starts with [p]. *)
Fixpoint after (p s : string) : option string :=
  match p, s with
  | EmptyString, _ => Some s
  | String a p', String b s' => if Ascii.eqb a b then after p' s' else None
  | String _ _, EmptyString => None
  end.

Definition is_char (c : ascii) (x : ascii) : bool := Ascii.eqb x c.

Definition none_of (cs : list ascii) (x : ascii) : bool :=
  negb (existsb (Ascii.eqb x) cs).

(** Every character of [s] satisfies [f]. *)
Fixpoint all_chars (f : ascii -> bool) (s : string) : bool :=
  match s with
  | EmptyString => true
  | String c s' => f c && all_chars f s'
  end.

(** [re.search(r'/r/([^/?]+)', url)]: group 1 of the leftmost match. *)
Fixpoint search_community (url : string) : option string :=
  match url with
  | EmptyString => None
  | String _ rest =>
      match after "/r/" url with
      | Some tail =>
          match take_while (none_of ["/"; "?"]%char) tail with
          | EmptyString => search_community rest
          | name => Some name
          end
      | None => search_community rest
      end
  end.






(** [community_base] in [_setup_community_dir]. *)
Definition community_base (collection_url : string) : string :=
  match search_community collection_url with
  | Some name => "r_" +:+ name
  | None => "r_unknown"
  end.

(** [name] is the community a URL names: the longest run of characters
    other than [/] and [?] behind a [/r/], at the first place [pre] of
    the URL where a [/r/] has such a character behind it. *)
Definition names_community (url pre name post : string) : Prop :=
  url = pre +:+ "/r/" +:+ name +:+ post
  /\ name <> EmptyString
  /\ all_chars (none_of ["/"; "?"]%char) name = true
  /\ take_while (none_of ["/"; "?"]%char) post = EmptyString
  /\ forall pre1 c rest,
       none_of ["/"; "?"]%char c = true ->
       url = pre1 +:+ "/r/" +:+ String c rest ->
       (String.length pre <= String.length pre1)%nat.



(** *** Counting comments, and an item as merge.py reads it back *)

(** [_count_comments(comment['replies'])] *)
Fixpoint count_replies (c : comment) : nat :=
  match c with
  | Comment _ _ rs => (length rs + sum_list (map count_replies rs))%nat
  end.

(** [RedditFetcher._count_comments] *)
Definition _count_comments (comments : list comment) : nat :=
  (length comments + sum_list (map count_replies comments))%nat.

(** The [shreddit-comment] elements of a tree, those below an element
    whose children cannot be looked up left out. *)
Fixpoint elements_below (e : comment_elem) : nat :=
  match e with
  | Comment_elem _ _ nested =>
      match nested with
      | Ok l => (length l + sum_list (map elements_below l))%nat
      | Raise _ => 0%nat
      end
  end.

Definition opt_json (o : option string) : json :=
  match o with
  | Some s => JStr s
  | None => JNull
  end.

(** The dictionary [comment_data]. *)
Fixpoint comment_json (c : comment) : json :=
  match c with
  | Comment text score rs =>
      JDict [("text", opt_json text); ("votes", opt_json score);
             ("replies", JList (map comment_json rs))]
  end.

(** The dictionary [post_data], which [json.dump] writes and [json.load]
    of merge.py returns: the keys in the order they were set. *)
Definition item_json (p : post_data) : json :=
  JDict ([("url", JStr (post_url p)); ("hash", JStr (hash p));
          ("scraped_at", JStr (scraped_at p));
          ("title", opt_json (title p));
          ("description", opt_json (description p));
          ("votes", opt_json (votes p));
          ("comments", JList (map comment_json (comments p)))]
         ++ match id p with
            | Some n => [("id", JInt n)]
            | None => []
            end).

(** What merge.py gets from opening and parsing an item file. *)
Definition load_item (f : file post_data) : result json :=
  match f with
  | Missing => Raise OSError
  | Garbled => Raise JSONDecodeError
  | Holds p => Ok (item_json p)
  end.

(** *** Sample data *)

(** A stand-in for [md5] in the examples. *)
Definition plain_hash (link : string) : string := link.

Definition five_links : list string := ["/a"; "/b"; "/c"; "/d"; "/e"].

Definition two_known : gset string := {["/b"; "/d"]}.

(** A scope directory without files, before setup. *)
Definition empty_scope : state :=
  {| next_id := 0; collected_hashes := ∅; item_files := ∅;
     id_tracker_file := Missing; hash_tracker_file := Missing |}.

Definition sample_post (link : string) : post_data :=
  {| post_url := link; hash := plain_hash link; scraped_at := "2024-05-01T10:00:00";
     title := Some "A title"; description := None; votes := None;
     comments := []; id := None |}.

(** The scope right after setup on the empty directory. *)
Definition fresh_scope : state :=
  {| next_id := 1; collected_hashes := ∅; item_files := ∅;
     id_tracker_file := Missing; hash_tracker_file := Missing |}.

(** The item file is written, and writing the id tracker then fails. *)
Definition id_tracker_fault : faults :=
  {| on_item := Written; on_id_tracker := Open_fails; on_hash_tracker := Written |}.

(** The item file and the id tracker are written, and writing the hash
    tracker then fails. *)
Definition hash_tracker_fault : faults :=
  {| on_item := Written; on_id_tracker := Written; on_hash_tracker := Open_fails |}.

(** Two items saved, with a restart of the program in between. *)
Definition two_saves : list op :=
  [Save no_fault (sample_post "/a"); Restart; Save no_fault (sample_post "/b")].

(** An item page on which no element is found. *)
Definition bare_page : item_page :=
  {| h1_title := Raise NoSuchElementException;
     text_body := Raise NoSuchElementException;
     seeker_votes := Raise NoSuchElementException;
     shreddit_post := Raise NoSuchElementException;
     load_comments := Ok tt;
     comment_tree := Raise NoSuchElementException;
     close_tab := Ok tt |}.

(** An item page whose info row has an empty [faceplate-number], while
    the [shreddit-post] element shows a score of 7. *)
Definition empty_row_page : item_page :=
  {| h1_title := Ok "A title";
     text_body := Raise NoSuchElementException;
     seeker_votes := Ok {| vote_text := Ok ""; number_attr := Ok None |};
     shreddit_post :=
       Ok {| post_faceplate := Ok {| vote_text := Ok "7"; number_attr := Ok (Some "7") |};
             score_attr := Ok (Some "7") |};
     load_comments := Ok tt;
     comment_tree := Raise NoSuchElementException;
     close_tab := Ok tt |}.

(** An item page with every field present and one comment, on which
    closing the tab ends as [closed]. *)
Definition full_page (closed : result unit) : item_page :=
  {| h1_title := Ok " A title ";
     text_body := Ok {| paragraphs := Ok [Ok "Body"]; body_text := Ok "Body" |};
     seeker_votes := Ok {| vote_text := Ok "5"; number_attr := Ok (Some "5") |};
     shreddit_post := Raise NoSuchElementException;
     load_comments := Ok tt;
     comment_tree :=
       Ok [Comment_elem (Ok {| paragraphs := Ok [Ok "First"]; body_text := Ok "First" |})
             (Raise NoSuchElementException) (Ok [])];
     close_tab := closed |}.

(** A comment element with the given text, no score element, and the
    given children. *)
Definition plain_comment (t : string) (children : list comment_elem) : comment_elem :=
  Comment_elem (Ok {| paragraphs := Ok [Ok t]; body_text := Ok t |})
    (Raise NoSuchElementException) (Ok children).

(** A comment element whose text cannot be read. *)
Definition stale_comment : comment_elem :=
  Comment_elem (Raise StaleElementReferenceException)
    (Raise NoSuchElementException) (Ok []).

(** A listing on which looking up the containers always raises. *)
Definition blocked_listing : Surface := {|
  surface := unit;
  container := string;
  find_elements := fun _ => Raise WebDriverException;
  get_href := fun _ c => Ok (Some c);
  scroll_height := fun _ => Ok 1000%Z;
  scroll_to := fun pg => (Ok tt, pg)
|}.

(** A session over the static listing in which every item page is
    [pg] and every write goes through. *)
Definition plain_session (pg : item_page) : @session static_listing :=
  {| setup_driver := Started;
     open_listing := Ok (five_links : @surface static_listing);
     open_item := fun _ => Ok pg;
     disk := fun _ => no_fault;
     quit := Ok tt |}.

Definition two_links : list link_info :=
  [{| url := "/a"; votes_preview := None |}; {| url := "/b"; votes_preview := None |}].

(** A scope whose id tracker was left half written. *)
Definition garbled_scope : state :=
  {| next_id := 0; collected_hashes := ∅; item_files := ∅;
     id_tracker_file := Garbled; hash_tracker_file := Missing |}.

(** The session of the examples: every item page has all its fields. *)
Definition full_session : @session static_listing := plain_session (full_page (Ok tt)).

(** The record extracted from [full_page] for the link [/a]. *)
Definition full_post : post_data :=
  {| post_url := "/a"; hash := plain_hash "/a"; scraped_at := "2024-05-01T10:00:00";
     title := Some "A title"; description := Some "Body"; votes := Some "5";
     comments := [Comment (Some "First") None []]; id := None |}.

(** A scope with one item file and no trackers, before and after
    setup. *)
Definition orphaned_scope : state :=
  {| next_id := 0; collected_hashes := ∅;
     item_files := {[1%Z := Holds (set_id (sample_post "/old") 1)]};
     id_tracker_file := Missing; hash_tracker_file := Missing |}.

(** A scope set up with the counter at 1 and an older item under
    id 0. *)
Definition orphaned_scope_kept : state :=
  {| next_id := 1; collected_hashes := ∅;
     item_files := {[0%Z := Holds (set_id (sample_post "/old") 0)]};
     id_tracker_file := Missing; hash_tracker_file := Missing |}.

Definition orphaned_scope_loaded : state :=
  {| next_id := 1; collected_hashes := ∅;
     item_files := {[1%Z := Holds (set_id (sample_post "/old") 1)]};
     id_tracker_file := Missing; hash_tracker_file := Missing |}.

(** A session in which the driver does not start. *)
Definition no_driver : @session static_listing :=
  {| setup_driver := Not_started WebDriverException;
     open_listing := Raise WebDriverException;
     open_item := fun _ => Raise WebDriverException;
     disk := fun _ => no_fault;
     quit := Ok tt |}.

End Fetch.

(** * Properties *)

Import Fetch.

(** ** The flattener *)

Section FlattenerFacts.

Variable repr : json -> string.
Variable json_dumps : json -> result string.

Lemma handle_null_blank (v : json) :
  Merge.blank v = true -> Merge._handle_null_value repr v "" = "".
Proof.
  destruct v as [| b | n | s | l | d]; simpl; try discriminate; try reflexivity.
  - intros ->. reflexivity.
  - intros ->. reflexivity.
  - intros ->. reflexivity.
Qed.

Lemma handle_null_string (s : string) :
  strip s <> "" -> Merge._handle_null_value repr (JStr s) "" = strip s.
Proof.
  intros Hs. simpl. destruct (String.eqb_spec (strip s) ""); [contradiction | reflexivity].
Qed.

Lemma handle_null_other (v : json) :
  Merge.blank v = false -> (forall s, v <> JStr s) ->
  Merge._handle_null_value repr v "" = Merge.str repr v.
Proof.
  destruct v as [| b | n | s | l | d]; simpl; intros Hb Hs;
    try discriminate; try reflexivity.
  - exfalso. apply (Hs s). reflexivity.
  - rewrite Hb. reflexivity.
  - rewrite Hb. reflexivity.
Qed.

Lemma comments_falsy (v : json) :
  truthy v = false -> Merge._comments_to_json_string json_dumps v = Ok "[]".
Proof.
  intros Hv. unfold Merge._comments_to_json_string.
  destruct v; try reflexivity; rewrite Hv; reflexivity.
Qed.

Lemma comments_list (l : list json) :
  l <> [] ->
  Merge._comments_to_json_string json_dumps (JList l) =
  Ok (match json_dumps (JList l) with Ok s => s | Raise _ => "[]" end).
Proof.
  intros Hl. destruct l as [| x l]; [contradiction |].
  unfold Merge._comments_to_json_string. simpl.
  destruct (json_dumps (JList (x :: l))); reflexivity.
Qed.

End FlattenerFacts.

(** C8, as amended: [_handle_null_value] turns [None], a blank string
    and an empty list or dictionary into the empty string, a string that
    is not blank into that string stripped of the white space around it,
    and any other value into its [str]; the comment field becomes
    ["[]"] for [None] and every other falsy value, and the JSON text of a
    non-empty list otherwise (["[]"] again when encoding raises).  An
    item with a null score, no comments and an empty description
    flattens to the row of the specification. *)
Theorem flattener_defaulting (repr : json -> string) (json_dumps : json -> result string) :
  (forall v, Merge.blank v = true -> Merge._handle_null_value repr v "" = "")
  /\ (forall s, Merge.blank (JStr s) = false ->
        Merge._handle_null_value repr (JStr s) "" = strip s)
  /\ (forall v, Merge.blank v = false -> (forall s, v <> JStr s) ->
        Merge._handle_null_value repr v "" = Merge.str repr v)
  /\ (forall v, truthy v = false ->
        Merge._comments_to_json_string json_dumps v = Ok "[]")
  /\ (forall l, l <> [] ->
        Merge._comments_to_json_string json_dumps (JList l) =
        Ok (match json_dumps (JList l) with Ok s => s | Raise _ => "[]" end))
  /\ (forall next cat d,
        assoc "votes" d = Some JNull ->
        assoc "comments" d = Some (JList []) ->
        assoc "description" d = Some (JStr "") ->
        exists r,
          Merge._process_json_file repr json_dumps next (Ok (JDict d)) cat
          = (Some r, (next + 1)%Z)
          /\ Merge.votes r = "" /\ Merge.comments r = "[]" /\ Merge.description r = "").
Proof.
  split; [apply handle_null_blank |].
  split.
  { intros s Hs. apply handle_null_string. simpl in Hs.
    intros Heq. rewrite Heq in Hs. discriminate. }
  split; [apply handle_null_other |].
  split; [apply comments_falsy |].
  split; [apply comments_list |].
  intros next cat d Hv Hc Hd.
  unfold Merge._process_json_file, Merge.build_record. simpl.
  rewrite Hv, Hc, Hd. simpl.
  eexists. split; [reflexivity |]. repeat split.
Qed.

(** C8 as stated fails: a title with white space around it is not
    blank, its text is the string itself, and the flattener yields the
    stripped string. *)
Lemma flattener_strips_text :
  Merge.blank (JStr " hi ") = false
  /\ (forall repr, Merge.str repr (JStr " hi ") = " hi ")
  /\ (forall repr, Merge._handle_null_value repr (JStr " hi ") "" = "hi")
  /\ "hi" <> " hi ".
Proof.
  repeat split. discriminate.
Qed.

(** ** The item store writer *)

Lemma save_post_ok (w : faults) (p : post_data) (s : state) (n : Z) :
  (save_post w p s).1 = Ok n ->
  n = next_id s
  /\ on_item w = Written
  /\ item_file (save_post w p s).2 n = Holds (set_id p n)
  /\ next_id (save_post w p s).2 = (n + 1)%Z
  /\ collected_hashes (save_post w p s).2 = {[hash p]} ∪ collected_hashes s
  /\ id_tracker_file (save_post w p s).2 = Holds (Some (n + 1)%Z)
  /\ hash_tracker_file (save_post w p s).2
     = Holds (Some (elements ({[hash p]} ∪ collected_hashes s))).
Proof.
  unfold save_post.
  destruct (title p); [| discriminate].
  destruct w as [[] [] []]; simpl; try discriminate;
    intros [= <-]; unfold item_file; simpl;
    rewrite lookup_insert_eq; repeat split.
Qed.

Lemma save_post_item_fault (w : faults) (p : post_data) (s : state) :
  on_item w <> Written ->
  (exists e, (save_post w p s).1 = Raise e)
  /\ next_id (save_post w p s).2 = next_id s
  /\ collected_hashes (save_post w p s).2 = collected_hashes s
  /\ id_tracker_file (save_post w p s).2 = id_tracker_file s
  /\ hash_tracker_file (save_post w p s).2 = hash_tracker_file s.
Proof.
  intros Hw. unfold save_post.
  destruct (title p); [| simpl; eauto 10].
  destruct w as [[] wi wh]; simpl in *; [contradiction | |]; eauto 10.
Qed.

Lemma save_post_first (p : post_data) (s : state) :
  title p <> None -> (save_post no_fault p s).1 = Ok (next_id s).
Proof.
  intros Ht. unfold save_post. destruct (title p); [reflexivity | contradiction].
Qed.

Lemma save_post_commits_after_write (w : faults) (p : post_data) (s : state) :
  next_id (save_post w p s).2 <> next_id s
  \/ collected_hashes (save_post w p s).2 <> collected_hashes s
  \/ id_tracker_file (save_post w p s).2 <> id_tracker_file s
  \/ hash_tracker_file (save_post w p s).2 <> hash_tracker_file s ->
  on_item w = Written
  /\ item_file (save_post w p s).2 (next_id s) = Holds (set_id p (next_id s)).
Proof.
  unfold save_post.
  destruct (title p); [| simpl; intuition congruence].
  destruct w as [[] [] []]; simpl; unfold item_file; simpl;
    try (intuition congruence);
    intros _; rewrite lookup_insert_eq; split; reflexivity.
Qed.

(** C1: [save_post] writes the item file before it touches the
    trackers.  When the write of the item file fails the call raises,
    the counter, the fingerprint set and both tracker files are as
    before, and the next call that goes through is given the same id.
    The counter, the set or a tracker file change only after the item
    file holds the record under that id. *)
Theorem save_post_write_then_commit (w : faults) (p : post_data) (s : state) :
  (on_item w <> Written ->
     (exists e, (save_post w p s).1 = Raise e)
     /\ next_id (save_post w p s).2 = next_id s
     /\ collected_hashes (save_post w p s).2 = collected_hashes s
     /\ id_tracker_file (save_post w p s).2 = id_tracker_file s
     /\ hash_tracker_file (save_post w p s).2 = hash_tracker_file s
     /\ (forall p', title p' <> None ->
           (save_post no_fault p' (save_post w p s).2).1 = Ok (next_id s)))
  /\ (next_id (save_post w p s).2 <> next_id s
      \/ collected_hashes (save_post w p s).2 <> collected_hashes s
      \/ id_tracker_file (save_post w p s).2 <> id_tracker_file s
      \/ hash_tracker_file (save_post w p s).2 <> hash_tracker_file s ->
      on_item w = Written
      /\ item_file (save_post w p s).2 (next_id s) = Holds (set_id p (next_id s)))
  /\ (forall n, (save_post w p s).1 = Ok n ->
        n = next_id s
        /\ item_file (save_post w p s).2 n = Holds (set_id p n)
        /\ next_id (save_post w p s).2 = (n + 1)%Z
        /\ collected_hashes (save_post w p s).2 = {[hash p]} ∪ collected_hashes s).
Proof.
  split; [| split].
  - intros Hw. destruct (save_post_item_fault w p s Hw) as (He & Hn & Hh & Hi & Ht).
    repeat (split; [assumption |]).
    intros p' Hp'. rewrite save_post_first by assumption. congruence.
  - apply save_post_commits_after_write.
  - intros n Hn. destruct (save_post_ok w p s n Hn) as (? & ? & ? & ? & ? & ?).
    repeat split; assumption.
Qed.

(** ** The identity counter *)

Lemma save_post_in_step (w : faults) (p : post_data) (s : state) :
  in_step s -> trackers_written (Save w p) ->
  in_step (save_post w p s).2
  /\ match (save_post w p s).1 with
     | Ok n => n = next_id s /\ next_id (save_post w p s).2 = (next_id s + 1)%Z
     | Raise _ => next_id (save_post w p s).2 = next_id s
     end.
Proof.
  unfold in_step, trackers_written, save_post. intros Hs [Hi Hh].
  destruct (title p); [| simpl; auto].
  destruct w as [wi wt wh]; simpl in Hi, Hh; subst wt wh.
  destruct wi; simpl; auto.
Qed.

Lemma restart_in_step (s s' : state) :
  in_step s -> _setup_community_dir s = Ok s' ->
  in_step s' /\ next_id s' = next_id s.
Proof.
  unfold in_step, _setup_community_dir. intros Hs.
  rewrite Hs. simpl.
  destruct (_load_collected_hashes (hash_tracker_file s)); simpl; [| discriminate].
  intros [= <-]. simpl. auto.
Qed.

Lemma setup_in_step (s0 s : state) :
  _setup_community_dir s0 = Ok s ->
  in_step s /\ _load_next_id (id_tracker_file s0) = Ok (next_id s).
Proof.
  unfold in_step, _setup_community_dir.
  destruct (_load_next_id (id_tracker_file s0)) as [n |] eqn:Hn; simpl; [| discriminate].
  destruct (_load_collected_hashes (hash_tracker_file s0)); simpl; [| discriminate].
  intros [= <-]. simpl. auto.
Qed.

Lemma history_in_step (ops : list op) (s : state) :
  in_step s -> Forall trackers_written ops ->
  (history ops s).1 = seqZ (next_id s) (Z.of_nat (length (history ops s).1))
  /\ next_id (history ops s).2 = (next_id s + Z.of_nat (length (history ops s).1))%Z
  /\ in_step (history ops s).2.
Proof.
  revert s. induction ops as [| o ops IH]; intros s Hs Hops.
  - simpl. repeat split; [lia | assumption].
  - inversion Hops as [| ? ? Ho Hrest]; subst.
    destruct o as [w p |]; simpl.
    + destruct (save_post_in_step w p s Hs Ho) as [Hs' Hr].
      destruct (save_post w p s) as [[n | e] s'] eqn:Hsave; simpl in Hs', Hr.
      * destruct Hr as [-> Hn].
        destruct (IH s' Hs' Hrest) as (Hids & Hnext & Hstep).
        destruct (history ops s') as [ids s''] eqn:Hh; simpl in *.
        rewrite Hn in Hids, Hnext.
        repeat split; [| lia | assumption].
        rewrite Nat2Z.inj_succ, seqZ_cons by lia.
        f_equal. rewrite Z.pred_succ.
        replace (Z.succ (next_id s)) with (next_id s + 1)%Z by lia. exact Hids.
      * destruct (IH s' Hs' Hrest) as (Hids & Hnext & Hstep).
        rewrite Hr in Hids, Hnext. auto.
    + destruct (_setup_community_dir s) as [s' |] eqn:Hsetup.
      * destruct (restart_in_step s s' Hs Hsetup) as [Hs' Hn].
        destruct (IH s' Hs' Hrest) as (Hids & Hnext & Hstep).
        rewrite Hn in Hids, Hnext. auto.
      * simpl. repeat split; [lia | assumption].
Qed.

Lemma goes_through_written (o : op) : goes_through o -> trackers_written o.
Proof. destruct o as [w p |]; simpl; [| auto]. intros [-> _]. split; reflexivity. Qed.

Lemma history_hands_out (ops : list op) (s : state) :
  in_step s -> hash_tracker_file s <> Garbled -> Forall goes_through ops ->
  length (history ops s).1 = saves ops.
Proof.
  revert s. induction ops as [| o ops IH]; intros s Hs Hh Hops; [reflexivity |].
  inversion Hops as [| ? ? Ho Hrest]; subst.
  destruct o as [w p |]; simpl.
  - destruct (save_post_in_step w p s Hs (goes_through_written _ Ho)) as [Hs' _].
    destruct Ho as [-> Ht].
    pose proof (save_post_first p s Ht) as Hok.
    destruct (save_post_ok no_fault p s (next_id s) Hok) as (_ & _ & _ & _ & _ & _ & Hht).
    destruct (save_post no_fault p s) as [[n | e] s1]; simpl in *; [| discriminate].
    assert (Hh1 : hash_tracker_file s1 <> Garbled) by (rewrite Hht; discriminate).
    specialize (IH s1 Hs' Hh1 Hrest).
    destruct (history ops s1) as [ids s2]. simpl in *. congruence.
  - unfold _setup_community_dir. unfold in_step in Hs. rewrite Hs. simpl.
    destruct (hash_tracker_file s) as [| | data] eqn:Hfile; simpl;
      [| contradiction |]; apply IH; simpl; try assumption; rewrite Hfile; discriminate.
Qed.

(** C2, as amended: over any history of a scope (calls of [save_post]
    and restarts) in which the tracker writes that follow an item write
    go through, the ids handed out by the calls that return are the
    counter loaded at setup and its successors, one after the other:
    increasing, without gap or repetition.  The counter loaded at setup
    is the persisted one, and 1 when there is no tracker file; after the
    history the counter has advanced by the number of ids handed out and
    is the value a restart would load.  Ids are handed out: every call
    on an item with a title whose three writes go through returns one,
    and after the history such a call returns the next in line. *)
Theorem ids_consecutive (ops : list op) (s0 s : state) :
  _setup_community_dir s0 = Ok s ->
  Forall trackers_written ops ->
  _load_next_id (id_tracker_file s0) = Ok (next_id s)
  /\ (id_tracker_file s0 = Missing -> next_id s = 1%Z)
  /\ (history ops s).1 = seqZ (next_id s) (Z.of_nat (length (history ops s).1))
  /\ NoDup (history ops s).1
  /\ next_id (history ops s).2 = (next_id s + Z.of_nat (length (history ops s).1))%Z
  /\ _load_next_id (id_tracker_file (history ops s).2) = Ok (next_id (history ops s).2)
  /\ (Forall goes_through ops -> length (history ops s).1 = saves ops)
  /\ (forall p, title p <> None ->
        (save_post no_fault p (history ops s).2).1
        = Ok (next_id s + Z.of_nat (length (history ops s).1))%Z).
Proof.
  intros Hsetup Hops.
  destruct (setup_in_step s0 s Hsetup) as [Hs Hload].
  destruct (history_in_step ops s Hs Hops) as (Hids & Hnext & Hstep).
  split; [assumption |].
  split.
  { intros Hm. rewrite Hm in Hload. simpl in Hload. congruence. }
  split; [assumption |].
  split; [rewrite Hids; apply NoDup_seqZ |].
  split; [assumption |].
  split; [assumption |].
  split.
  - apply history_hands_out; [assumption |].
    unfold _setup_community_dir in Hsetup.
    destruct (_load_next_id (id_tracker_file s0)); simpl in Hsetup; [| discriminate].
    destruct (hash_tracker_file s0) eqn:Hh; simpl in Hsetup; try discriminate;
      injection Hsetup as <-; simpl; try rewrite Hh; discriminate.
  - intros p Hp. rewrite save_post_first by assumption. rewrite Hnext. reflexivity.
Qed.

(** C2 as stated fails.  The item file [1.json] is written and the
    write of the id tracker then fails: after a restart the next item is
    saved under id 1 again, over the first.  And when the write of the
    hash tracker fails, the call does not return although the item is
    written and the counter saved: the ids returned are 1 and 3. *)
Lemma ids_reused_after_tracker_fault :
  item_file (save_post id_tracker_fault (sample_post "/a") fresh_scope).2 1
  = Holds (set_id (sample_post "/a") 1)
  /\ (history [Save id_tracker_fault (sample_post "/a"); Restart;
               Save no_fault (sample_post "/b")] fresh_scope).1 = [1%Z]
  /\ item_file
       (history [Save id_tracker_fault (sample_post "/a"); Restart;
                 Save no_fault (sample_post "/b")] fresh_scope).2 1
     = Holds (set_id (sample_post "/b") 1)
  /\ (history [Save no_fault (sample_post "/a");
               Save hash_tracker_fault (sample_post "/b");
               Save no_fault (sample_post "/c")] fresh_scope).1 = [1%Z; 3%Z]
  /\ item_file
       (history [Save no_fault (sample_post "/a");
                 Save hash_tracker_fault (sample_post "/b");
                 Save no_fault (sample_post "/c")] fresh_scope).2 2
     = Holds (set_id (sample_post "/b") 2).
Proof. repeat split. Qed.

(** ** Lists of links *)

Lemma hrefs_app (l1 l2 : list event) : hrefs (l1 ++ l2) = hrefs l1 ++ hrefs l2.
Proof.
  induction l1 as [| [[link |] |] l1 IH]; simpl; [reflexivity | | |]; rewrite IH; reflexivity.
Qed.

Lemma scrolls_app (l1 l2 : list event) : scrolls (l1 ++ l2) = (scrolls l1 + scrolls l2)%nat.
Proof. unfold scrolls. rewrite List.filter_app, length_app. reflexivity. Qed.

Lemma elem_of_first_occurrences (x : string) (l : list string) :
  x ∈ first_occurrences l <-> x ∈ l.
Proof.
  induction l as [| y l IH]; simpl; [reflexivity |].
  rewrite !elem_of_cons, <- IH, !list_elem_of_In, List.filter_In, negb_true_iff.
  destruct (String.eqb_spec x y) as [-> | Hne]; [tauto |].
  intuition congruence.
Qed.

Lemma filter_neq_id (x : string) (l : list string) :
  x ∉ l -> List.filter (fun y => negb (String.eqb y x)) l = l.
Proof.
  induction l as [| y l IH]; simpl; [reflexivity |].
  intros Hx. apply not_elem_of_cons in Hx as [Hne Hx].
  destruct (String.eqb_spec y x); [congruence |]. simpl. rewrite IH by assumption.
  reflexivity.
Qed.

Lemma first_occurrences_snoc (l : list string) (x : string) :
  first_occurrences (l ++ [x]) =
  if decide (x ∈ l) then first_occurrences l else first_occurrences l ++ [x].
Proof.
  induction l as [| y l IH]; simpl.
  - destruct (decide (x ∈ [])) as [Hin | _]; [inversion Hin | reflexivity].
  - rewrite IH.
    destruct (decide (x ∈ l)) as [Hin | Hnin].
    + rewrite decide_True by (right; assumption). reflexivity.
    + rewrite List.filter_app. simpl.
      destruct (String.eqb_spec x y) as [-> | Hne]; simpl.
      * rewrite decide_True by left. rewrite app_nil_r. reflexivity.
      * rewrite decide_False by (rewrite elem_of_cons; tauto). reflexivity.
Qed.



Lemma first_occurrences_app (a b : list string) :
  exists r, first_occurrences (a ++ b) = first_occurrences a ++ r.
Proof.
  induction a as [| x a [r IH]]; simpl.
  - eexists. reflexivity.
  - rewrite IH, List.filter_app. eexists. reflexivity.
Qed.

Lemma first_occurrences_unseen (h : string -> string) (hashes : gset string)
    (l : list string) (x : string) :
  x ∈ first_occurrences (List.filter (unseen h hashes) l) ->
  x ∈ l /\ x <> EmptyString /\ h x ∉ hashes.
Proof.
  rewrite elem_of_first_occurrences, list_elem_of_In, List.filter_In, <- list_elem_of_In.
  unfold unseen. rewrite andb_true_iff, negb_true_iff, bool_decide_eq_false.
  intros (Hin & Ht & Hh). repeat split; [assumption | | assumption].
  intros ->. discriminate.
Qed.

(** ** The discovery loop *)

Section DiscoveryFacts.

Context `{Surface}.
Variable h : string -> string.
Variable hashes : gset string.
Variable count : Z.

Abbreviation consistent := (consistent h hashes count).
Abbreviation visit := (visit h hashes count).
Abbreviation scan := (scan h hashes count).
Abbreviation attempt := (attempt h hashes count).
Abbreviation iteration := (iteration h hashes count).
Abbreviation while_loop := (while_loop h hashes count).
Abbreviation enough := (enough count).
Abbreviation guard := (guard count).
Abbreviation room := (room count).

Lemma enough_false (v : vars) : enough v = false <-> room v.
Proof. unfold Fetch.enough, Fetch.room. rewrite Z.leb_gt. reflexivity. Qed.

Lemma enough_true (v : vars) :
  enough v = true <-> (count <= Z.of_nat (length (collected_links v)))%Z.
Proof. unfold Fetch.enough. rewrite Z.leb_le. reflexivity. Qed.

Lemma consistent_init (pg : surface) : (0 < count)%Z -> consistent (init pg).
Proof.
  intros Hc. unfold Fetch.consistent, urls, init; simpl.
  repeat split; try set_solver; try lia.
Qed.

Lemma consistent_href_none (v : vars) :
  consistent v -> room v -> consistent (record_event (Ev_href None) v).
Proof.
  unfold Fetch.consistent, Fetch.room, urls, record_event; simpl.
  intros (Hu & Hs & Hp & Hl & Hstop) Hroom.
  rewrite hrefs_app; simpl. rewrite app_nil_r.
  repeat split; try assumption; try apply Hs. lia.
Qed.

Lemma consistent_skip (v : vars) (l : string) :
  consistent v -> room v ->
  str_truthy l && negb (bool_decide (l ∈ seen_links v)) = false
  \/ h l ∈ hashes ->
  consistent (record_event (Ev_href (Some l)) v).
Proof.
  unfold Fetch.consistent, Fetch.room, urls, record_event; simpl.
  intros (Hu & Hs & Hp & Hl & Hstop) Hroom Hskip.
  rewrite hrefs_app, List.filter_app; simpl.
  assert (Hsame :
    first_occurrences
      (List.filter (unseen h hashes) (hrefs (log v))
       ++ (if unseen h hashes l then [l] else []))
    = first_occurrences (List.filter (unseen h hashes) (hrefs (log v)))).
  { destruct (unseen h hashes l) eqn:Hun; [| rewrite app_nil_r; reflexivity].
    rewrite first_occurrences_snoc.
    unfold unseen in Hun. apply andb_true_iff in Hun as [Ht Hh].
    apply negb_true_iff, bool_decide_eq_false in Hh.
    destruct Hskip as [Hskip | Hskip]; [| contradiction].
    rewrite Ht in Hskip. simpl in Hskip.
    apply negb_false_iff, bool_decide_eq_true in Hskip.
    apply Hs in Hskip. rewrite Hu in Hskip.
    rewrite elem_of_first_occurrences in Hskip.
    rewrite decide_True by assumption. reflexivity. }
  rewrite Hsame.
  repeat split; try assumption; try apply Hs. lia.
Qed.

Lemma consistent_collect (v : vars) (l : string) :
  consistent v -> room v ->
  str_truthy l = true -> l ∉ seen_links v -> h l ∉ hashes ->
  consistent (collect l (record_event (Ev_href (Some l)) v)).
Proof.
  unfold Fetch.consistent, Fetch.room, urls, collect, record_event; simpl.
  intros (Hu & Hs & Hp & Hl & Hstop) Hroom Ht Hseen Hh.
  rewrite hrefs_app, List.filter_app; simpl.
  assert (Hun : unseen h hashes l = true).
  { unfold unseen. rewrite Ht. simpl. apply negb_true_iff, bool_decide_eq_false. assumption. }
  rewrite Hun, first_occurrences_snoc, map_app, length_app; simpl.
  rewrite decide_False.
  2:{ rewrite <- elem_of_first_occurrences, <- Hu, <- Hs. assumption. }
  rewrite <- Hu.
  split; [reflexivity |].
  split.
  { intros l0. rewrite elem_of_union, elem_of_singleton, elem_of_app, Hs.
    rewrite list_elem_of_singleton. tauto. }
  split.
  { apply Forall_app. split; [assumption |]. repeat constructor. }
  split; [lia |].
  intros _. exists (log v), {| url := l; votes_preview := None |}.
  split; [reflexivity |]. apply last_snoc.
Qed.

Lemma consistent_ext (v v' : vars) :
  collected_links v' = collected_links v -> seen_links v' = seen_links v ->
  log v' = log v -> consistent v -> consistent v'.
Proof.
  unfold Fetch.consistent, urls. intros -> -> ->. tauto.
Qed.

Lemma consistent_scroll (v : vars) :
  consistent v -> room v -> consistent (record_event Ev_scroll v).
Proof.
  unfold Fetch.consistent, Fetch.room, urls, record_event; simpl.
  intros (Hu & Hs & Hp & Hl & Hstop) Hroom.
  rewrite hrefs_app; simpl. rewrite app_nil_r.
  repeat split; try assumption; try apply Hs. lia.
Qed.

Lemma visible_cons (pg : surface) (c : container) (cs : list container) :
  visible pg (c :: cs) = visible pg [c] ++ visible pg cs.
Proof. simpl. destruct (get_href pg c) as [[l |] | e]; reflexivity. Qed.

(** What [visit] and [scan] leave untouched. *)
Lemma visit_frame (c : container) (v : vars) :
  page (visit c v).2 = page v
  /\ scroll_attempts (visit c v).2 = scroll_attempts v
  /\ scrolls (log (visit c v).2) = scrolls (log v).
Proof.
  unfold Fetch.visit.
  destruct (get_href (page v) c) as [[l |] | e]; simpl.
  - destruct (str_truthy l && negb (bool_decide (l ∈ seen_links v))); simpl;
      [destruct (bool_decide (h l ∈ hashes)); simpl;
         [| destruct (Fetch.enough _ _); simpl] |];
      rewrite scrolls_app; simpl; auto with lia.
  - rewrite scrolls_app; simpl. auto with lia.
  - destruct (is_stale_or_no_such e); simpl; auto.
Qed.

Lemma scan_frame (cs : list container) (v : vars) :
  page (scan cs v).2 = page v
  /\ scroll_attempts (scan cs v).2 = scroll_attempts v
  /\ scrolls (log (scan cs v).2) = scrolls (log v).
Proof.
  revert v. induction cs as [| c cs IH]; intros v; simpl; [auto |].
  destruct (visit_frame c v) as (Hp & Ha & Hs).
  destruct (visit c v) as [[[|] | e] v1]; simpl in *; auto.
  destruct (IH v1) as (Hp' & Ha' & Hs'). repeat split; congruence.
Qed.

Lemma visit_spec (c : container) (v : vars) :
  consistent v -> room v ->
  consistent (visit c v).2
  /\ match (visit c v).1 with
     | Ok Continue =>
         room (visit c v).2
         /\ hrefs (log (visit c v).2) = hrefs (log v) ++ visible (page v) [c]
     | Ok Break => enough (visit c v).2 = true
     | Raise _ => room (visit c v).2 /\ readable (page v) c = false
     end.
Proof.
  intros Hv Hroom. unfold Fetch.visit, readable. simpl.
  destruct (get_href (page v) c) as [[l |] | e]; simpl.
  - destruct (str_truthy l && negb (bool_decide (l ∈ seen_links v))) eqn:Hl; simpl.
    + apply andb_true_iff in Hl as [Ht Hseen].
      apply negb_true_iff, bool_decide_eq_false in Hseen.
      destruct (bool_decide (h l ∈ hashes)) eqn:Hh; simpl.
      * apply bool_decide_eq_true in Hh.
        split; [apply consistent_skip; auto |].
        split; [exact Hroom |]. rewrite hrefs_app. reflexivity.
      * apply bool_decide_eq_false in Hh.
        pose proof (consistent_collect v l Hv Hroom Ht Hseen Hh) as Hc.
        destruct (Fetch.enough count _) eqn:He; simpl.
        -- split; assumption.
        -- split; [assumption |]. split; [apply enough_false; assumption |].
           rewrite hrefs_app. reflexivity.
    + split; [apply consistent_skip; auto |].
      split; [exact Hroom |]. rewrite hrefs_app. reflexivity.
  - split; [apply consistent_href_none; assumption |].
    split; [exact Hroom |]. rewrite hrefs_app. simpl. reflexivity.
  - destruct (is_stale_or_no_such e) eqn:He; simpl.
    + split; [assumption |]. split; [assumption |]. rewrite app_nil_r. reflexivity.
    + auto.
Qed.

Lemma scan_spec (cs : list container) (v : vars) :
  consistent v -> room v ->
  consistent (scan cs v).2
  /\ match (scan cs v).1 with
     | Ok _ =>
         enough (scan cs v).2 = true
         \/ (room (scan cs v).2
             /\ hrefs (log (scan cs v).2) = hrefs (log v) ++ visible (page v) cs)
     | Raise _ =>
         room (scan cs v).2 /\ exists c, c ∈ cs /\ readable (page v) c = false
     end.
Proof.
  revert v. induction cs as [| c cs IH]; intros v Hv Hroom.
  - simpl. split; [assumption |]. right. rewrite app_nil_r. auto.
  - rewrite visible_cons. simpl.
    destruct (visit_spec c v Hv Hroom) as [Hc Hr].
    destruct (visit_frame c v) as (Hpg & _ & _).
    destruct (visit c v) as [[[|] | e] v1]; simpl in *.
    + destruct Hr as [Hroom1 Hh].
      destruct (IH v1 Hc Hroom1) as [Hc2 Hr2].
      split; [assumption |].
      destruct (scan cs v1) as [[u | e] v2]; simpl in *.
      * destruct Hr2 as [He | [Hroom2 Hh2]]; [left; assumption | right].
        split; [assumption |]. rewrite Hh2, Hh, Hpg, app_assoc. reflexivity.
      * destruct Hr2 as [Hroom2 (c' & Hin & Hread)].
        split; [assumption |]. exists c'. rewrite <- Hpg.
        split; [right; assumption | assumption].
    + auto.
    + destruct Hr as [Hroom1 Hread].
      split; [assumption |]. split; [assumption |].
      exists c. split; [left | assumption].
Qed.

Lemma scroll_and_wait_frame (v : vars) :
  collected_links (scroll_and_wait v).2 = collected_links v
  /\ seen_links (scroll_and_wait v).2 = seen_links v
  /\ scroll_attempts (scroll_and_wait v).2 = scroll_attempts v
  /\ log (scroll_and_wait v).2 = log v ++ [Ev_scroll].
Proof.
  unfold scroll_and_wait; simpl.
  destruct (scroll_height (page v)); simpl; [| auto].
  destruct (scroll_to (page v)) as [[u | e] pg]; simpl; [| auto].
  destruct (scroll_height pg); simpl; auto.
Qed.

Lemma scroll_and_wait_consistent (v : vars) :
  consistent v -> room v -> consistent (scroll_and_wait v).2.
Proof.
  intros Hv Hroom.
  destruct (scroll_and_wait_frame v) as (Hc & Hs & _ & Hl).
  apply (consistent_ext (record_event Ev_scroll v)); try assumption.
  apply consistent_scroll; assumption.
Qed.

Lemma attempt_consistent (v : vars) :
  consistent v -> room v -> consistent (attempt v).2.
Proof.
  intros Hv Hroom. unfold Fetch.attempt.
  destruct (find_elements (page v)) as [cs | e]; simpl; [| assumption].
  destruct (scan_spec cs v Hv Hroom) as [Hc Hr].
  destruct (scan cs v) as [[u | e] v1]; simpl in *; [| assumption].
  destruct (Fetch.enough count v1) eqn:He; simpl; [assumption |].
  apply enough_false in He.
  pose proof (scroll_and_wait_consistent v1 Hc He) as Hc2.
  destruct (scroll_and_wait v1) as [[more | e] v2]; simpl in *; [| assumption].
  destruct (negb more); simpl; apply (consistent_ext v2); auto.
Qed.

Lemma iteration_consistent (v : vars) :
  consistent v -> room v -> consistent (iteration v).2.
Proof.
  intros Hv Hroom. unfold Fetch.iteration.
  pose proof (attempt_consistent v Hv Hroom) as Hc.
  destruct (attempt v) as [[f | e] v1]; simpl in *; [assumption |].
  apply (consistent_ext v1); auto.
Qed.

(** How one pass moves the attempt counter and the number of scroll
    cycles. *)
Lemma iteration_frame (v : vars) :
  match (iteration v).1 with
  | Continue =>
      scroll_attempts (iteration v).2 = (scroll_attempts v + 1)%Z
      /\ (scrolls (log (iteration v).2) <= scrolls (log v) + 1)%nat
  | Break =>
      (scroll_attempts (iteration v).2 = scroll_attempts v
       /\ scrolls (log (iteration v).2) = scrolls (log v))
      \/ (scroll_attempts (iteration v).2 = (scroll_attempts v + 1)%Z
          /\ scrolls (log (iteration v).2) = (scrolls (log v) + 1)%nat)
  end.
Proof.
  unfold Fetch.iteration, Fetch.attempt.
  destruct (find_elements (page v)) as [cs | e]; simpl; [| auto with lia].
  destruct (scan_frame cs v) as (_ & Ha & Hs).
  destruct (scan cs v) as [[u | e] v1]; simpl in *; [| rewrite Ha, Hs; auto with lia].
  destruct (Fetch.enough count v1); simpl; [auto |].
  destruct (scroll_and_wait_frame v1) as (_ & _ & Ha2 & Hl2).
  destruct (scroll_and_wait v1) as [[more | e] v2]; simpl in *.
  - destruct more; simpl; rewrite Ha2, Hl2, scrolls_app, Ha, Hs; simpl; auto with lia.
  - rewrite Ha2, Hl2, scrolls_app, Ha, Hs; simpl. auto with lia.
Qed.

Lemma guard_true (v : vars) :
  guard v = true <-> room v /\ (scroll_attempts v < max_scroll_attempts)%Z.
Proof.
  unfold Fetch.guard, Fetch.room. rewrite andb_true_iff, !Z.ltb_lt. reflexivity.
Qed.

Lemma iteration_bounded (v : vars) :
  bounded v -> guard v = true -> bounded (iteration v).2.
Proof.
  unfold bounded. intros [Hs Ha] Hg. apply guard_true in Hg as [_ Hlt].
  pose proof (iteration_frame v) as Hf.
  destruct (iteration v) as [[|] v1]; simpl in *; lia.
Qed.

(** The loop ends within [max_scroll_attempts - scroll_attempts]
    unrollings. *)
Lemma while_loop_ends (fuel : nat) (v : vars) :
  bounded v -> (max_scroll_attempts - scroll_attempts v <= Z.of_nat fuel)%Z ->
  exists v', while_loop fuel v = Some v' /\ bounded v'.
Proof.
  revert v. induction fuel as [| fuel IH]; intros v Hb Hfuel; simpl.
  - destruct (Fetch.guard count v) eqn:Hg; [| eauto].
    apply guard_true in Hg. lia.
  - destruct (Fetch.guard count v) eqn:Hg; [| eauto].
    pose proof (iteration_bounded v Hb Hg) as Hb1.
    pose proof (iteration_frame v) as Hf.
    destruct (iteration v) as [[|] v1]; simpl in *; [| eauto].
    apply IH; [assumption | lia].
Qed.

Lemma while_loop_consistent (fuel : nat) (v v' : vars) :
  consistent v -> while_loop fuel v = Some v' -> consistent v'.
Proof.
  revert v. induction fuel as [| fuel IH]; intros v Hv; simpl.
  - destruct (Fetch.guard count v); [discriminate | intros [= <-]; assumption].
  - destruct (Fetch.guard count v) eqn:Hg; [| intros [= <-]; assumption].
    apply guard_true in Hg as [Hroom _].
    pose proof (iteration_consistent v Hv Hroom) as Hc.
    destruct (iteration v) as [[|] v1]; simpl in *; [| intros [= <-]; assumption].
    apply IH. assumption.
Qed.

Lemma bounded_init (pg : surface) : bounded (init pg).
Proof. unfold bounded, max_scroll_attempts, scrolls; simpl. lia. Qed.

Lemma slice_to_all {A : Type} (l : list A) :
  (Z.of_nat (length l) <= count)%Z -> slice_to l count = l.
Proof.
  intros Hl. unfold slice_to.
  destruct (0 <=? count)%Z eqn:Hc; [| apply Z.leb_gt in Hc; lia].
  apply take_ge. lia.
Qed.

Lemma visit_hrefs (c : container) (v : vars) :
  hrefs (log (visit c v).2) = hrefs (log v) ++ visible (page v) [c].
Proof.
  unfold Fetch.visit. simpl.
  destruct (get_href (page v) c) as [[l |] | e]; simpl.
  - destruct (str_truthy l && negb (bool_decide (l ∈ seen_links v))); simpl;
      [destruct (bool_decide (h l ∈ hashes)); simpl;
         [| destruct (Fetch.enough _ _); simpl] |];
      rewrite hrefs_app; reflexivity.
  - rewrite hrefs_app. reflexivity.
  - rewrite app_nil_r. destruct (is_stale_or_no_such e); reflexivity.
Qed.

Lemma scan_hrefs (cs : list container) (v : vars) :
  exists more,
    hrefs (log v) ++ visible (page v) cs = hrefs (log (scan cs v).2) ++ more.
Proof.
  revert v. induction cs as [| c cs IH]; intros v.
  - exists []. reflexivity.
  - rewrite visible_cons. simpl.
    pose proof (visit_hrefs c v) as Hh.
    destruct (visit_frame c v) as (Hpg & _ & _).
    destruct (visit c v) as [[[|] | e] v1]; simpl in *;
      rewrite app_assoc, <- Hh.
    + rewrite <- Hpg. apply IH.
    + eexists. reflexivity.
    + eexists. reflexivity.
Qed.


(** The loop always ends within its fifty unrollings. *)
Lemma collect_post_links_total (pg : surface) :
  exists v,
    collect_post_links h hashes count pg = Some (collected_links v, v)
    /\ bounded v
    /\ ((0 < count)%Z -> consistent v)
    /\ ((count <= 0)%Z -> v = init pg).
Proof.
  unfold collect_post_links.
  destruct (while_loop_ends (Z.to_nat max_scroll_attempts) (init pg))
    as (v & Hloop & Hb); [apply bounded_init | simpl; lia |].
  exists v. rewrite Hloop.
  assert (Hcons : (0 < count)%Z -> consistent v).
  { intros Hpos. exact (while_loop_consistent _ _ _ (consistent_init pg Hpos) Hloop). }
  assert (Hinit : (count <= 0)%Z -> v = init pg).
  { intros Hle.
    assert (Hg : guard (init pg) = false).
    { unfold Fetch.guard. simpl. apply andb_false_iff. left. apply Z.ltb_ge. lia. }
    simpl in Hloop. rewrite Hg in Hloop. congruence. }
  split; [| auto].
  f_equal. f_equal.
  destruct (Z.lt_ge_cases 0 count) as [Hpos | Hle].
  - apply slice_to_all. apply (Hcons Hpos).
  - rewrite (Hinit Hle). unfold slice_to. simpl. destruct (0 <=? count)%Z; apply take_nil.
Qed.



(** No link the loop returns carries a preview. *)
Lemma collected_without_preview (pg : surface) :
  exists links v,
    collect_post_links h hashes count pg = Some (links, v)
    /\ Forall (fun li => votes_preview li = None) links.
Proof.
  destruct (collect_post_links_total pg) as (v & Hv & _ & Hc & Hinit).
  exists (collected_links v), v. split; [assumption |].
  destruct (Z.lt_ge_cases 0 count) as [Hpos | Hle].
  - apply (Hc Hpos).
  - rewrite (Hinit Hle). constructor.
Qed.

End DiscoveryFacts.

(** ** The item extractor *)

Ltac case_reads :=
  repeat match goal with
    | |- context [match ?x with _ => _ end] => destruct x eqn:?; simpl in *
    end.

Lemma absent_is_none_raise (r : result string) (e : exn) :
  absent_is_none r = Raise e <-> r = Raise e /\ e <> NoSuchElementException.
Proof.
  unfold absent_is_none. destruct r as [s | e']; simpl.
  - split; [discriminate | intros [? _]; discriminate].
  - destruct e'; simpl; split; try discriminate;
      try (intros [= <-]; split; [reflexivity | discriminate]);
      try (intros [[= <-] Hne]; congruence).
Qed.

Lemma method_1_raise (pg : item_page) (e : exn) :
  method_1 pg = Raise e -> e <> NoSuchElementException.
Proof.
  unfold method_1, method_2, read_faceplate.
  case_reads; intros [= <-]; intros ->; discriminate.
Qed.

(** C4, as amended: the three strategies are tried in order, a later
    one only when the one before raised [NoSuchElementException].  A
    strategy whose element is found settles the score: its stripped
    text, or when that is empty its [number] attribute, whatever that
    is.  When neither the first nor the second finds its element the
    score is the [score] attribute, or [None] when that cannot be read.
    The preview is the score only when an exception other than
    [NoSuchElementException] leaves the first or the second strategy. *)
Theorem score_strategies (pg : item_page) (votes_preview : option string) :
  (forall ve t,
     seeker_votes pg = Ok ve -> vote_text ve = Ok t -> strip t <> EmptyString ->
     read_votes pg votes_preview = Some (strip t))
  /\ (forall ve t a,
        seeker_votes pg = Ok ve -> vote_text ve = Ok t -> strip t = EmptyString ->
        number_attr ve = Ok a ->
        read_votes pg votes_preview = a)
  /\ (forall ve t,
        seeker_votes pg = Raise NoSuchElementException ->
        bind (shreddit_post pg) post_faceplate = Ok ve ->
        vote_text ve = Ok t -> strip t <> EmptyString ->
        read_votes pg votes_preview = Some (strip t))
  /\ (forall ve t a,
        seeker_votes pg = Raise NoSuchElementException ->
        bind (shreddit_post pg) post_faceplate = Ok ve ->
        vote_text ve = Ok t -> strip t = EmptyString -> number_attr ve = Ok a ->
        read_votes pg votes_preview = a)
  /\ (seeker_votes pg = Raise NoSuchElementException ->
      bind (shreddit_post pg) post_faceplate = Raise NoSuchElementException ->
      read_votes pg votes_preview
      = match bind (shreddit_post pg) score_attr with
        | Ok a => a
        | Raise _ => None
        end)
  /\ (forall e,
        method_1 pg = Raise e ->
        read_votes pg votes_preview = votes_preview /\ e <> NoSuchElementException).
Proof.
  repeat split.
  - intros ve t Hs Ht Hne. unfold read_votes, method_1, read_faceplate.
    rewrite Hs, Ht. simpl. destruct (strip t); [contradiction | reflexivity].
  - intros ve t a Hs Ht He Ha. unfold read_votes, method_1, read_faceplate.
    rewrite Hs, Ht, He, Ha. reflexivity.
  - intros ve t Hs Hf Ht Hne.
    unfold read_votes, method_1, method_2, read_faceplate.
    rewrite Hs. simpl. rewrite Hf, Ht. simpl.
    destruct (strip t); [contradiction | reflexivity].
  - intros ve t a Hs Hf Ht He Ha.
    unfold read_votes, method_1, method_2, read_faceplate.
    rewrite Hs. simpl. rewrite Hf, Ht, He, Ha. reflexivity.
  - intros Hs Hf. unfold read_votes, method_1, method_2, method_3.
    rewrite Hs. simpl. rewrite Hf. simpl.
    destruct (bind (shreddit_post pg) score_attr); reflexivity.
  - unfold read_votes. rewrite H. reflexivity.
  - exact (method_1_raise pg e H).
Qed.

Lemma read_title_raise (pg : item_page) (e : exn) :
  read_title pg = Raise e <-> h1_title pg = Raise e /\ e <> NoSuchElementException.
Proof.
  unfold read_title. rewrite absent_is_none_raise.
  destruct (h1_title pg); simpl; intuition congruence.
Qed.

(** C7, as amended: a title, a body or a score whose element is not
    found becomes [None], and with the remaining steps going through
    the call returns the record with every field filled in.  The call
    returns [None] exactly when an exception leaves the guards of the
    fields: opening or loading the page raises, reading the title or the
    body raises something other than [NoSuchElementException], or, with
    the fields already extracted, the scrolls that load the comments or
    closing the tab raise. *)
Theorem extraction_tolerates_absence (h : string -> string) (now : string)
    (loaded : result item_page) (link : string) (votes_preview : option string) :
  (forall pg, h1_title pg = Raise NoSuchElementException -> read_title pg = Ok None)
  /\ (forall pg, text_body pg = Raise NoSuchElementException ->
        read_description pg = Ok None)
  /\ (forall pg,
        seeker_votes pg = Raise NoSuchElementException ->
        shreddit_post pg = Raise NoSuchElementException ->
        read_votes pg None = None)
  /\ (forall pg t d,
        loaded = Ok pg -> read_title pg = Ok t -> read_description pg = Ok d ->
        load_comments pg = Ok tt -> close_tab pg = Ok tt ->
        extract_post_data h now loaded link votes_preview
        = Some {| post_url := link; hash := h link; scraped_at := now;
                  title := t; description := d;
                  votes := read_votes pg votes_preview;
                  comments := extract_comments pg; id := None |})
  /\ (extract_post_data h now loaded link votes_preview = None <->
      (exists e, loaded = Raise e)
      \/ exists pg, loaded = Ok pg
           /\ ((exists e, h1_title pg = Raise e /\ e <> NoSuchElementException)
               \/ (exists e, read_description pg = Raise e /\ e <> NoSuchElementException)
               \/ (exists e, load_comments pg = Raise e)
               \/ (exists e, close_tab pg = Raise e))).
Proof.
  split; [| split; [| split; [| split]]].
  - intros pg Ht. unfold read_title. rewrite Ht. reflexivity.
  - intros pg Hb. unfold read_description. rewrite Hb. reflexivity.
  - intros pg Hs Hp. unfold read_votes, method_1, method_2, method_3.
    rewrite Hs. simpl. rewrite Hp. reflexivity.
  - intros pg t d -> Ht Hd Hl Hc. unfold extract_post_data. simpl.
    rewrite Ht, Hd, Hl, Hc. reflexivity.
  - unfold extract_post_data. destruct loaded as [pg | e0]; simpl.
    2:{ split; [eauto | reflexivity]. }
    destruct (read_title pg) as [t | e1] eqn:Ht; simpl.
    2:{ split; [| reflexivity]. intros _. right. exists pg. split; [reflexivity |].
        left. exists e1. apply read_title_raise. assumption. }
    destruct (read_description pg) as [d | e2] eqn:Hd; simpl.
    2:{ split; [| reflexivity]. intros _. right. exists pg. split; [reflexivity |].
        right. left. exists e2. split; [assumption |].
        unfold read_description in Hd. apply absent_is_none_raise in Hd. apply Hd. }
    destruct (load_comments pg) as [u | e3] eqn:Hl; simpl.
    2:{ split; [| reflexivity]. intros _. right. exists pg. split; [reflexivity |].
        right. right. left. exists e3. assumption. }
    destruct (close_tab pg) as [u' | e4] eqn:Hc; simpl.
    2:{ split; [| reflexivity]. intros _. right. exists pg. split; [reflexivity |].
        right. right. right. exists e4. assumption. }
    split; [discriminate |].
    intros [[e He] | (pg' & Hpg & Hcase)]; [discriminate |].
    injection Hpg as <-.
    destruct Hcase as [(e & He & Hne) | [(e & He & _) | [[e He] | [e He]]]];
      try congruence.
    assert (read_title pg = Raise e) by (apply read_title_raise; auto).
    congruence.
Qed.

(** C7 as stated fails: on this page the title, the body, the score and
    the comments are all read, and the call still returns [None],
    because closing the tab raises afterwards. *)
Lemma extraction_fails_after_fields :
  read_title (full_page (Raise WebDriverException)) = Ok (Some "A title")
  /\ read_description (full_page (Raise WebDriverException)) = Ok (Some "Body")
  /\ read_votes (full_page (Raise WebDriverException)) None = Some "5"
  /\ extract_comments (full_page (Raise WebDriverException))
     = [Comment (Some "First") None []]
  /\ extract_post_data plain_hash "2024-05-01T10:00:00"
       (Ok (full_page (Raise WebDriverException))) "/a" None = None.
Proof. repeat split. Qed.

(** C4 as stated fails twice.  On [bare_page] every strategy fails and a
    preview is supplied, yet the score is [None].  On [empty_row_page]
    the first strategy yields nothing, the second would yield 7, and the
    score is [None]. *)
Lemma score_fallback_not_taken :
  read_votes bare_page (Some "5") = None
  /\ read_votes empty_row_page None = None
  /\ method_2 empty_row_page None = Ok (Some "7").
Proof. repeat split. Qed.

(** ** The tree extractor *)

Lemma omap_drop {A B : Type} (f : A -> option B) (l1 l2 : list A) (bad : A) :
  f bad = None -> omap f (l1 ++ bad :: l2) = omap f l1 ++ omap f l2.
Proof.
  intros Hbad. rewrite omap_app. simpl. rewrite Hbad. reflexivity.
Qed.

(** C6: [extract_comments] returns a list in every case, the empty one
    when the comment tree is not found or cannot be read.  A comment
    whose own extraction raises (reading its text or its score raises
    something other than [NoSuchElementException]) is left out of the
    list it would belong to, at the top level and below a parent, and
    the comments around it are kept in order.  The replies of a comment
    that survives are the surviving children, the empty list when the
    children cannot be looked up. *)
Theorem comment_tree_extraction (pg : item_page) :
  (forall e, comment_tree pg = Raise e -> extract_comments pg = [])
  /\ (forall l1 bad l2,
        comment_tree pg = Ok (l1 ++ bad :: l2) ->
        _extract_single_comment bad = None ->
        extract_comments pg
        = omap _extract_single_comment l1 ++ omap _extract_single_comment l2)
  /\ (forall body faceplate nested,
        _extract_single_comment (Comment_elem body faceplate nested) = None
        <-> (exists e, comment_text body = Raise e)
            \/ (exists e, comment_votes faceplate = Raise e))
  /\ (forall body faceplate nested c,
        _extract_single_comment (Comment_elem body faceplate nested) = Some c ->
        (forall e, nested = Raise e -> replies_of c = [])
        /\ (forall l, nested = Ok l -> replies_of c = omap _extract_single_comment l)
        /\ (forall l1 bad l2,
              nested = Ok (l1 ++ bad :: l2) ->
              _extract_single_comment bad = None ->
              replies_of c
              = omap _extract_single_comment l1 ++ omap _extract_single_comment l2)).
Proof.
  split; [| split; [| split]].
  - intros e He. unfold extract_comments. rewrite He. reflexivity.
  - intros l1 bad l2 Ht Hbad. unfold extract_comments. rewrite Ht.
    apply omap_drop. assumption.
  - intros body faceplate nested. simpl.
    destruct (comment_text body) as [t | e1]; [| split; eauto].
    destruct (comment_votes faceplate) as [s | e2]; [| split; eauto].
    split; [discriminate |]. intros [[e He] | [e He]]; discriminate.
  - intros body faceplate nested c. simpl.
    destruct (comment_text body) as [t | e1]; [| discriminate].
    destruct (comment_votes faceplate) as [s | e2]; [| discriminate].
    intros [= <-]. simpl.
    split; [intros e ->; reflexivity |].
    split; [intros l ->; reflexivity |].
    intros l1 bad l2 -> Hbad. apply omap_drop. assumption.
Qed.

(** ** Previews *)

Section PreviewFacts.

Context `{Surface}.
Variable h : string -> string.
Variable hashes : gset string.
Variable count : Z.

(** C10: every link [collect_post_links] returns has [None] as its
    preview.  So when [fetch_posts] hands a link and its preview to
    [extract_post_data] and the score block falls back to the preview,
    the score is [None]. *)
Theorem preview_always_null (pg : surface) :
  exists links v,
    collect_post_links h hashes count pg = Some (links, v)
    /\ Forall (fun li => votes_preview li = None) links
    /\ (forall li ipg e,
          li ∈ links -> method_1 ipg = Raise e ->
          read_votes ipg (votes_preview li) = None)
    /\ (forall li now ipg e p,
          li ∈ links -> method_1 ipg = Raise e ->
          extract_post_data h now (Ok ipg) (url li) (votes_preview li) = Some p ->
          votes p = None).
Proof.
  destruct (collected_without_preview h hashes count pg) as (links & v & Hv & Hnone).
  exists links, v. split; [assumption |]. split; [assumption |].
  assert (Hread : forall li ipg e,
            li ∈ links -> method_1 ipg = Raise e ->
            read_votes ipg (votes_preview li) = None).
  { intros li ipg e Hin He. unfold read_votes. rewrite He.
    rewrite Forall_forall in Hnone. apply Hnone. assumption. }
  split; [assumption |].
  intros li now ipg e p Hin He. unfold extract_post_data. simpl.
  destruct (read_title ipg); simpl; [| discriminate].
  destruct (read_description ipg); simpl; [| discriminate].
  destruct (load_comments ipg); simpl; [| discriminate].
  destruct (close_tab ipg); simpl; [| discriminate].
  intros [= <-]. simpl. eapply Hread; eassumption.
Qed.

End PreviewFacts.

(** ** Exit status *)

Section ExitFacts.

Context `{Surface}.
Variable h : string -> string.
Variable now : string.
Variable env : session.

Lemma fetch_posts_returns (count : Z) (s : state) :
  quit env = Ok tt \/ (exists e, setup_driver env = Not_started e) ->
  (fetch_posts h now env count s).1 = Ok tt.
Proof.
  unfold fetch_posts. intros [Hq | [e He]].
  - destruct (setup_driver env); simpl; [| reflexivity | assumption].
    destruct (harvest h now env count s). simpl. assumption.
  - rewrite He. reflexivity.
Qed.

(** C5, as amended: both programs leave with a non-zero status on a
    usage error, which for fetch includes a target count of zero or
    less; merge also does when the data directory is missing, fetch
    when building the fetcher raises or when quitting the browser
    raises.  In every other case fetch leaves with status 0: when the
    driver does not start, and whatever happens to the listing, to the
    items or to the disk. *)
Theorem exit_status (s : state) :
  (forall constructed, (main h now env Merge.Usage_error constructed s).1 = 2%Z)
  /\ (forall link count dir constructed,
        (count <= 0)%Z ->
        (main h now env (Merge.Args (link, count, dir)) constructed s).1 = 1%Z)
  /\ (forall scanned written, Merge.main Merge.Usage_error scanned written = 2%Z)
  /\ (forall args written, Merge.main (Merge.Args args) None written = 1%Z)
  /\ (forall link count dir e,
        (0 < count)%Z ->
        (main h now env (Merge.Args (link, count, dir)) (Raise e) s).1 = 1%Z)
  /\ (forall link count dir e,
        (0 < count)%Z ->
        (forall e', setup_driver env <> Not_started e') -> quit env = Raise e ->
        (main h now env (Merge.Args (link, count, dir)) (Ok tt) s).1 = 1%Z)
  /\ (forall link count dir,
        (0 < count)%Z ->
        quit env = Ok tt \/ (exists e, setup_driver env = Not_started e) ->
        (main h now env (Merge.Args (link, count, dir)) (Ok tt) s).1 = 0%Z).
Proof.
  split; [reflexivity |].
  split.
  { intros link count dir constructed Hc. unfold main.
    destruct (count <=? 0)%Z eqn:Hle; [reflexivity | apply Z.leb_gt in Hle; lia]. }
  split; [reflexivity |].
  split; [reflexivity |].
  split.
  { intros link count dir e Hc. unfold main.
    destruct (count <=? 0)%Z eqn:Hle; [apply Z.leb_le in Hle; lia | reflexivity]. }
  split.
  { intros link count dir e Hc Hstart Hq. unfold main, fetch_posts.
    destruct (count <=? 0)%Z eqn:Hle; [apply Z.leb_le in Hle; lia |].
    destruct (setup_driver env) as [| e' | e'] eqn:Hs; simpl.
    - destruct (harvest h now env count s). rewrite Hq. reflexivity.
    - exfalso. apply (Hstart e'). reflexivity.
    - rewrite Hq. reflexivity. }
  intros link count dir Hc Hok. unfold main.
  destruct (count <=? 0)%Z eqn:Hle; [apply Z.leb_le in Hle; lia |].
  pose proof (fetch_posts_returns count s Hok) as Hr.
  destruct (fetch_posts h now env count s) as [[u | e] s']; simpl in *;
    [reflexivity | discriminate].
Qed.

End ExitFacts.

(** C5 as stated fails: the driver does not start, and fetch leaves
    with status 0. *)
Lemma driver_failure_exits_zero :
  setup_driver no_driver = Not_started WebDriverException
  /\ (main plain_hash "2024-05-01T10:00:00" no_driver
        (Merge.Args ("https://www.reddit.com/r/python/top/", 5%Z, "data"))
        (Ok tt) empty_scope).1 = 0%Z.
Proof. split; reflexivity. Qed.

(** ** The scenarios of the specification *)

(** Two saves around a restart, from an empty directory: the ids are 1
    and 2, one for each save. *)
Lemma ids_consecutive_witness :
  (history two_saves fresh_scope).1
  = seqZ (next_id fresh_scope) (Z.of_nat (length (history two_saves fresh_scope).1))
  /\ length (history two_saves fresh_scope).1 = saves two_saves
  /\ next_id (history two_saves fresh_scope).2
     = (next_id fresh_scope + Z.of_nat (length (history two_saves fresh_scope).1))%Z.
Proof.
  destruct (ids_consecutive two_saves empty_scope fresh_scope)
    as (_ & _ & Hids & _ & Hnext & _ & Hcount & _).
  - reflexivity.
  - repeat constructor.
  - split; [exact Hids |]. split; [| exact Hnext].
    apply Hcount. repeat (constructor; try (split; [reflexivity | discriminate])).
Defined.

Example two_saves_ids : (history two_saves fresh_scope).1 = [1%Z; 2%Z].
Proof. reflexivity. Qed.


(** A root with two children and a grandchild under each comes back in
    that shape; a stale comment between the two children is left out. *)
Example tree_fidelity :
  omap _extract_single_comment
    [plain_comment "root"
       [plain_comment "one" [plain_comment "one.a" []];
        stale_comment;
        plain_comment "two" [plain_comment "two.a" []]]]
  = [Comment (Some "root") None
       [Comment (Some "one") None [Comment (Some "one.a") None []];
        Comment (Some "two") None [Comment (Some "two.a") None []]]].
Proof. reflexivity. Qed.

(** A second discovery over a static listing whose links are all
    fingerprinted finds nothing. *)
Example idempotent_dedup :
  exists v,
    @collect_post_links static_listing plain_hash (list_to_set five_links) 3 five_links
    = Some ([], v).
Proof. eexists. vm_compute. reflexivity. Qed.

(** * Further properties *)

(** ** White space *)

Lemma lstrip_length (s : string) : (String.length (lstrip s) <= String.length s)%nat.
Proof.
  induction s as [| c s IH]; simpl; [lia |].
  destruct (isspace c); simpl; lia.
Qed.

Lemma lstrip_head (c : ascii) (s : string) :
  lstrip (String c s) = String c s -> isspace c = false.
Proof.
  simpl. destruct (isspace c); [| reflexivity].
  intros Heq. pose proof (lstrip_length s) as Hlen.
  rewrite Heq in Hlen. simpl in Hlen. lia.
Qed.

Lemma lstrip_idem (s : string) : lstrip (lstrip s) = lstrip s.
Proof.
  induction s as [| c s IH]; simpl; [reflexivity |].
  destruct (isspace c) eqn:Hc; [assumption |].
  simpl. rewrite Hc. reflexivity.
Qed.

Lemma rstrip_idem (s : string) : rstrip (rstrip s) = rstrip s.
Proof.
  induction s as [| c s IH]; simpl; [reflexivity |].
  destruct (rstrip s) as [| d t] eqn:Hr.
  - destruct (isspace c) eqn:Hc; simpl; [reflexivity |]. rewrite Hc. reflexivity.
  - change (rstrip (String c (String d t))) with
      (match rstrip (String d t) with
       | EmptyString => if isspace c then EmptyString else String c EmptyString
       | String _ _ as t' => String c t'
       end).
    rewrite IH. reflexivity.
Qed.

Lemma rstrip_keeps_head (c : ascii) (s : string) :
  isspace c = false -> exists t, rstrip (String c s) = String c t.
Proof.
  intros Hc. simpl. destruct (rstrip s); [rewrite Hc |]; eauto.
Qed.

Lemma lstrip_rstrip (s : string) : lstrip s = s -> lstrip (rstrip s) = rstrip s.
Proof.
  destruct s as [| c s]; [reflexivity |].
  intros Hs. apply lstrip_head in Hs.
  destruct (rstrip_keeps_head c s Hs) as [t ->]. simpl. rewrite Hs. reflexivity.
Qed.

Lemma tidy_strip (s : string) : tidy (strip s).
Proof.
  unfold tidy, strip. split; [| apply rstrip_idem].
  apply lstrip_rstrip, lstrip_idem.
Qed.

Lemma strip_tidy (s : string) : tidy s -> strip s = s.
Proof. unfold tidy, strip. intros [-> ->]. reflexivity. Qed.


Lemma append_cons (c : ascii) (a b : string) : String c a +:+ b = String c (a +:+ b).
Proof. reflexivity. Qed.

Lemma append_assoc (a b c : string) : (a +:+ b) +:+ c = a +:+ b +:+ c.
Proof.
  induction a as [| x a IH]; [reflexivity |].
  rewrite !append_cons, IH. reflexivity.
Qed.

Lemma rstrip_app (a b : string) :
  b <> EmptyString -> rstrip b = b -> rstrip (a +:+ b) = a +:+ b.
Proof.
  intros Hb Hr. induction a as [| c a IH]; [assumption |].
  rewrite append_cons. simpl. rewrite IH.
  destruct (a +:+ b) eqn:Hab; [| reflexivity].
  destruct a; [contradiction | rewrite append_cons in Hab; discriminate].
Qed.

Lemma tidy_app (a m b : string) :
  a <> EmptyString -> tidy a -> b <> EmptyString -> tidy b -> tidy (a +:+ m +:+ b).
Proof.
  intros Ha [Hla _] Hb [_ Hrb]. split.
  - destruct a as [| c a]; [contradiction |].
    apply lstrip_head in Hla. rewrite append_cons. simpl. rewrite Hla. reflexivity.
  - rewrite <- append_assoc. apply rstrip_app; assumption.
Qed.

Lemma join_lines_tidy (ts : list string) :
  Forall (fun t => tidy t /\ t <> EmptyString) ts ->
  tidy (join_lines ts) /\ (ts <> [] -> join_lines ts <> EmptyString).
Proof.
  induction 1 as [| t ts [Ht Hne] Hts [IH1 IH2]]; simpl.
  - split; [split; reflexivity | congruence].
  - destruct ts as [| t' ts]; [split; [assumption | auto] |].
    split.
    + apply (tidy_app t (String (ascii_of_nat 10) EmptyString) (join_lines (t' :: ts)));
        auto.
    + intros _. destruct t; [contradiction | rewrite append_cons; discriminate].
Qed.

Lemma paragraph_texts_tidy (ps : list (result string)) (ts : list string) :
  paragraph_texts ps = Ok ts -> Forall (fun t => tidy t /\ t <> EmptyString) ts.
Proof.
  revert ts. induction ps as [| p ps IH]; simpl; intros ts.
  - intros [= <-]. constructor.
  - destruct p as [t | e]; simpl; [| discriminate].
    destruct (paragraph_texts ps) as [ts' | e]; simpl; [| discriminate].
    destruct (str_truthy (strip t)) eqn:Ht; intros [= <-]; [| auto].
    constructor; [| auto]. split; [apply tidy_strip |].
    intros Heq. rewrite Heq in Ht. discriminate.
Qed.

Lemma absent_is_none_some (r : result string) (s : string) :
  absent_is_none r = Ok (Some s) -> r = Ok s.
Proof.
  destruct r as [s' | e]; simpl; [congruence |].
  destruct (is_no_such_element e); discriminate.
Qed.

Lemma read_title_tidy (pg : item_page) (t : string) :
  read_title pg = Ok (Some t) -> tidy t.
Proof.
  unfold read_title. intros Ht. apply absent_is_none_some in Ht.
  destruct (h1_title pg); simpl in Ht; [| discriminate].
  injection Ht as <-. apply tidy_strip.
Qed.

Lemma read_description_tidy (pg : item_page) (d : string) :
  read_description pg = Ok (Some d) -> tidy d.
Proof.
  unfold read_description. intros Hd. apply absent_is_none_some in Hd.
  destruct (text_body pg) as [b |]; simpl in Hd; [| discriminate].
  destruct (paragraphs b) as [ps |]; simpl in Hd; [| discriminate].
  destruct (paragraph_texts ps) as [ts |] eqn:Hts; simpl in Hd; [| discriminate].
  injection Hd as <-. apply join_lines_tidy. eapply paragraph_texts_tidy. eassumption.
Qed.

Lemma comment_text_tidy (body : result body_elem) (t : string) :
  comment_text body = Ok (Some t) -> tidy t.
Proof.
  unfold comment_text. intros Ht. apply absent_is_none_some in Ht.
  destruct body as [b |]; simpl in Ht; [| discriminate].
  destruct (paragraphs b) as [ps |]; simpl in Ht; [| discriminate].
  destruct (paragraph_texts ps) as [ts |] eqn:Hts; simpl in Ht; [| discriminate].
  destruct (str_truthy (join_lines ts)).
  - injection Ht as <-. apply join_lines_tidy. eapply paragraph_texts_tidy. eassumption.
  - destruct (body_text b); simpl in Ht; [| discriminate].
    injection Ht as <-. apply tidy_strip.
Qed.

Lemma comment_votes_tidy (faceplate : result vote_elem) (s : string) :
  comment_votes faceplate = Ok (Some s) -> tidy s.
Proof.
  unfold comment_votes. intros Hs. apply absent_is_none_some in Hs.
  destruct faceplate as [ve |]; simpl in Hs; [| discriminate].
  destruct (number_attr ve) as [a |]; simpl in Hs; [| discriminate].
  destruct (opt_truthy a); simpl in Hs.
  - injection Hs as <-. apply tidy_strip.
  - destruct (vote_text ve); simpl in Hs; [| discriminate].
    injection Hs as <-. apply tidy_strip.
Qed.

(** ** Text fields *)

Lemma extracted_item_tidy (h : string -> string) (now : string)
    (loaded : result item_page) (link : string) (preview : option string)
    (p : post_data) :
  extract_post_data h now loaded link preview = Some p ->
  (forall t, title p = Some t -> strip t = t)
  /\ (forall d, description p = Some d -> strip d = d)
  /\ post_url p = link.
Proof.
  unfold extract_post_data.
  destruct loaded as [pg |]; simpl; [| discriminate].
  destruct (read_title pg) as [t |] eqn:Ht; simpl; [| discriminate].
  destruct (read_description pg) as [d |] eqn:Hd; simpl; [| discriminate].
  destruct (load_comments pg); simpl; [| discriminate].
  destruct (close_tab pg); simpl; [| discriminate].
  intros [= <-]. simpl. split; [| split; [| reflexivity]].
  - intros t' ->. apply strip_tidy. eapply read_title_tidy. eassumption.
  - intros d' ->. apply strip_tidy. eapply read_description_tidy. eassumption.
Qed.

(** The title and the body of an extracted item, and the text and the
    score of an extracted comment, have no white space at either end:
    stripping them again changes nothing. *)
Theorem extracted_text_is_stripped :
  (forall h now loaded link preview p,
     extract_post_data h now loaded link preview = Some p ->
     (forall t, title p = Some t -> strip t = t)
     /\ (forall d, description p = Some d -> strip d = d))
  /\ (forall e text score rs,
        _extract_single_comment e = Some (Comment text score rs) ->
        (forall t, text = Some t -> strip t = t)
        /\ (forall v, score = Some v -> strip v = v)).
Proof.
  split.
  - intros h now loaded link preview p Hp.
    destruct (extracted_item_tidy h now loaded link preview p Hp) as (Ht & Hd & _).
    auto.
  - intros [body faceplate nested] text score rs. simpl.
    destruct (comment_text body) as [t |] eqn:Ht; [| discriminate].
    destruct (comment_votes faceplate) as [v |] eqn:Hv; [| discriminate].
    intros [= <- <- _]. split.
    + intros t' ->. apply strip_tidy. eapply comment_text_tidy. eassumption.
    + intros v' ->. apply strip_tidy. eapply comment_votes_tidy. eassumption.
Qed.

(** ** The trackers *)

Lemma load_after_save (s : state) :
  _load_next_id (id_tracker_file (_save_next_id Written s).2) = Ok (next_id s)
  /\ _load_collected_hashes (hash_tracker_file (_save_collected_hashes Written s).2)
     = Ok (collected_hashes s).
Proof.
  split; [reflexivity |]. simpl. f_equal. apply list_to_set_elements_L.
Qed.

Lemma state_eq (s s' : state) :
  next_id s = next_id s' -> collected_hashes s = collected_hashes s' ->
  item_files s = item_files s' -> id_tracker_file s = id_tracker_file s' ->
  hash_tracker_file s = hash_tracker_file s' -> s = s'.
Proof. destruct s, s'; simpl. intros -> -> -> -> ->. reflexivity. Qed.

Lemma setup_after_save (w : faults) (p : post_data) (s : state) (n : Z) :
  (save_post w p s).1 = Ok n ->
  _setup_community_dir (save_post w p s).2 = Ok (save_post w p s).2.
Proof.
  intros Hn.
  destruct (save_post_ok w p s n Hn) as (_ & _ & _ & Hnext & Hh & Hid & Hht).
  unfold _setup_community_dir. rewrite Hid, Hht. simpl.
  rewrite list_to_set_elements_L. f_equal. symmetry.
  apply state_eq; simpl; auto.
Qed.

(** What the two [_save_*] methods write, the two [_load_*] methods read
    back: the counter, and the set of hashes although it went through a
    list.  A write that fails at [open] leaves the old file; one that
    fails midway leaves a file that makes the next load raise. *)
Theorem tracker_round_trip (s : state) :
  _load_next_id (id_tracker_file (_save_next_id Written s).2) = Ok (next_id s)
  /\ _load_collected_hashes (hash_tracker_file (_save_collected_hashes Written s).2)
     = Ok (collected_hashes s)
  /\ id_tracker_file (_save_next_id Open_fails s).2 = id_tracker_file s
  /\ hash_tracker_file (_save_collected_hashes Open_fails s).2 = hash_tracker_file s
  /\ _load_next_id (id_tracker_file (_save_next_id Dump_fails s).2)
     = Raise JSONDecodeError
  /\ _load_collected_hashes (hash_tracker_file (_save_collected_hashes Dump_fails s).2)
     = Raise JSONDecodeError.
Proof.
  destruct (load_after_save s) as [Hn Hh].
  repeat split; assumption.
Qed.

(** After a call of [save_post] that returned, a restart finds the
    fetcher as the call left it: the counter and the set of hashes read
    from the trackers are the ones in memory. *)
Theorem restart_after_save (w : faults) (p : post_data) (s : state) (n : Z) :
  (save_post w p s).1 = Ok n ->
  _setup_community_dir (save_post w p s).2 = Ok (save_post w p s).2.
Proof. apply setup_after_save. Qed.

Lemma restart_after_save_witness :
  _setup_community_dir (save_post no_fault (sample_post "/a") fresh_scope).2
  = Ok (save_post no_fault (sample_post "/a") fresh_scope).2.
Proof. apply (restart_after_save no_fault (sample_post "/a") fresh_scope 1%Z). reflexivity. Defined.

(** ** The batch of a run *)

Lemma save_post_next_id_range (w : faults) (p : post_data) (s : state) :
  (next_id s <= next_id (save_post w p s).2 <= next_id s + 1)%Z.
Proof.
  unfold save_post. destruct (title p); [| simpl; lia].
  destruct w as [[] [] []]; simpl; lia.
Qed.

Lemma write_item_other (w : write_outcome) (s : state) (n : Z) (p : post_data) (m : Z) :
  m <> n -> item_file (write_item w s n p).2 m = item_file s m.
Proof.
  intros Hm. unfold write_item, write_file, item_file at 1.
  destruct w; simpl.
  - rewrite lookup_insert_ne by congruence. reflexivity.
  - destruct (item_file s n); simpl; try reflexivity;
      rewrite lookup_insert_ne by congruence; reflexivity.
  - rewrite lookup_insert_ne by congruence. reflexivity.
Qed.

Lemma save_post_other_files (w : faults) (p : post_data) (s : state) (m : Z) :
  m <> next_id s -> item_file (save_post w p s).2 m = item_file s m.
Proof.
  intros Hm. unfold save_post. destruct (title p); [| reflexivity].
  pose proof (write_item_other (on_item w) s (next_id s) (set_id p (next_id s)) m Hm) as Hw.
  destruct (write_item (on_item w) s (next_id s) (set_id p (next_id s))) as [[u | e] s1];
    simpl in *; [| assumption].
  destruct (on_id_tracker w), (on_hash_tracker w); simpl; assumption.
Qed.

Lemma save_post_without_title (w : faults) (p : post_data) (s : state) :
  title p = None -> save_post w p s = (Raise TypeError, s).
Proof. intros Ht. unfold save_post. rewrite Ht. reflexivity. Qed.

Section BatchFacts.

Context `{Surface}.
Variable h : string -> string.
Variable now : string.
Variable env : session.

Abbreviation process := (process h now env).
Abbreviation harvest := (harvest h now env).
Abbreviation unreadable := (unreadable h now env).

Lemma process_frame (links : list link_info) (s : state) (a b : Z) (m : Z) :
  (m < next_id s)%Z -> item_file (process links s a b).2 m = item_file s m.
Proof.
  revert s a b. induction links as [| li links IH]; intros s a b Hm; simpl; [reflexivity |].
  destruct (extract_post_data h now (open_item env (url li)) (url li) (votes_preview li))
    as [p |]; [| apply IH; assumption].
  pose proof (save_post_next_id_range (disk env (url li)) p s) as Hr.
  pose proof (save_post_other_files (disk env (url li)) p s m) as Ho.
  destruct (save_post (disk env (url li)) p s) as [[n | e] s1]; simpl in *.
  - rewrite IH by lia. apply Ho. lia.
  - apply Ho. lia.
Qed.

Lemma process_range (links : list link_info) (s : state) (a b : Z) :
  (next_id s <= next_id (process links s a b).2
   <= next_id s + Z.of_nat (length links))%Z.
Proof.
  revert s a b. induction links as [| li links IH]; intros s a b; simpl; [lia |].
  destruct (extract_post_data h now (open_item env (url li)) (url li) (votes_preview li))
    as [p |]; [| specialize (IH s a (b + 1)%Z); lia].
  pose proof (save_post_next_id_range (disk env (url li)) p s) as Hr.
  destruct (save_post (disk env (url li)) p s) as [[n | e] s1]; simpl in *; [| lia].
  specialize (IH s1 (a + 1)%Z b). lia.
Qed.

(** When the loop of [fetch_posts] gets through its links, every link
    was counted once, as saved or as failed; the failed ones are those
    whose extraction returned [None]; the counter advanced by the number
    of saved items; and each id handed out in the batch names an item
    file that holds a record carrying that id. *)
Theorem process_accounting (links : list link_info) (s s' : state) (a b a' b' : Z) :
  process links s a b = (Ok (a', b'), s') ->
  (a' - a + (b' - b) = Z.of_nat (length links))%Z
  /\ (b' - b = Z.of_nat (length (unreadable links)))%Z
  /\ next_id s' = (next_id s + (a' - a))%Z
  /\ (forall n, (next_id s <= n < next_id s')%Z ->
        exists p, item_file s' n = Holds p /\ id p = Some n).
Proof.
  revert s a b. induction links as [| li links IH]; intros s a b; simpl.
  - intros [= <- <- <-]. repeat split; try lia.
  - destruct (extract_post_data h now (open_item env (url li)) (url li) (votes_preview li))
      as [p |] eqn:Hp.
    + destruct (save_post (disk env (url li)) p s) as [[n | e] s1] eqn:Hsave;
        [| discriminate].
      intros Hrest. destruct (IH s1 (a + 1)%Z b Hrest) as (Hsum & Hb & Hnext & Hfiles).
      assert (Hok : (save_post (disk env (url li)) p s).1 = Ok n) by (rewrite Hsave; reflexivity).
      destruct (save_post_ok _ _ _ _ Hok) as (-> & _ & Hfile & Hn1 & _).
      rewrite Hsave in Hfile, Hn1. simpl in Hfile, Hn1.
      repeat split; try lia.
      intros m Hm. destruct (Z.eq_dec m (next_id s)) as [-> | Hne].
      * exists (set_id p (next_id s)). split; [| reflexivity].
        pose proof (process_frame links s1 (a + 1)%Z b (next_id s)) as Hf.
        rewrite Hrest in Hf. simpl in Hf. rewrite Hf by lia. assumption.
      * apply Hfiles. lia.
    + intros Hrest. destruct (IH s a (b + 1)%Z Hrest) as (Hsum & Hb & Hnext & Hfiles).
      repeat split; try lia; try assumption.
      simpl. lia.
Qed.

(** An item whose page has no title element ends the batch: the
    extraction returns a record with a [None] title, [save_post] raises
    a [TypeError] on it before writing anything, and the links after it
    are not visited. *)
Theorem titleless_item_ends_batch (li : link_info) (rest : list link_info)
    (s : state) (a b : Z) (pg : item_page) (d : option string) :
  open_item env (url li) = Ok pg ->
  h1_title pg = Raise NoSuchElementException ->
  read_description pg = Ok d ->
  load_comments pg = Ok tt ->
  close_tab pg = Ok tt ->
  process (li :: rest) s a b = (Raise TypeError, s).
Proof.
  intros Hpg Ht Hd Hl Hc. simpl. unfold extract_post_data.
  rewrite Hpg. simpl. unfold read_title. rewrite Ht. simpl.
  rewrite Hd. simpl. rewrite Hl. simpl. rewrite Hc. simpl.
  reflexivity.
Qed.

(** A tracker file that does not parse stops a run at setup: nothing is
    discovered, extracted or written. *)
Theorem unreadable_tracker_stops_run (count : Z) (s : state) :
  id_tracker_file s = Garbled \/ hash_tracker_file s = Garbled ->
  harvest count s = (Raise JSONDecodeError, s).
Proof.
  unfold Fetch.harvest, _setup_community_dir.
  intros [Hg | Hg].
  - rewrite Hg. reflexivity.
  - rewrite Hg. destruct (_load_next_id (id_tracker_file s)) as [n | e] eqn:Hn; simpl.
    + reflexivity.
    + destruct (id_tracker_file s) as [| | [z |]]; simpl in Hn; congruence.
Qed.

(** A run hands out at most [count] ids: after the [try] block of
    [fetch_posts] the counter lies between the one loaded at setup and
    that plus [count]. *)
Theorem run_id_bound (count : Z) (s s1 : state) :
  _setup_community_dir s = Ok s1 ->
  (next_id s1 <= next_id (harvest count s).2 <= next_id s1 + Z.max 0 count)%Z.
Proof.
  intros Hs. unfold Fetch.harvest. rewrite Hs.
  destruct (open_listing env) as [pg |]; simpl; [| lia].
  destruct (collect_post_links_total h (collected_hashes s1) count pg)
    as (v & Hv & _ & Hc & Hinit).
  rewrite Hv.
  assert (Hlen : (Z.of_nat (length (collected_links v)) <= Z.max 0 count)%Z).
  { destruct (Z.lt_ge_cases 0 count) as [Hpos | Hle].
    - destruct (Hc Hpos) as (_ & _ & _ & Hl & _). lia.
    - rewrite (Hinit Hle). simpl. lia. }
  destruct (collected_links v) as [| li links] eqn:Hlinks; [simpl; lia |].
  pose proof (process_range (li :: links) s1 0 0) as Hr.
  destruct (Fetch.process h now env (li :: links) s1 0 0) as [[c | e] s2];
    cbn [snd fst] in *; lia.
Qed.

End BatchFacts.

(** ** Discovery on particular listings *)

Section ListingFacts.

Context `{Surface}.
Variable h : string -> string.
Variable hashes : gset string.
Variable count : Z.

Lemma blocked_loop (pg : surface) (e : exn) (fuel : nat) (v : vars) :
  find_elements pg = Raise e ->
  (0 < count)%Z ->
  page v = pg -> collected_links v = [] -> log v = [] ->
  (0 <= scroll_attempts v <= max_scroll_attempts)%Z ->
  (max_scroll_attempts - scroll_attempts v <= Z.of_nat fuel)%Z ->
  exists v',
    while_loop h hashes count fuel v = Some v'
    /\ collected_links v' = [] /\ log v' = []
    /\ scroll_attempts v' = max_scroll_attempts.
Proof.
  intros Hfind Hpos. revert v.
  induction fuel as [| fuel IH]; intros v Hpg Hc Hl Ha Hfuel; simpl.
  - assert (scroll_attempts v = max_scroll_attempts) as Heq by lia.
    unfold guard. rewrite Heq, Z.ltb_irrefl, andb_false_r. eauto.
  - destruct (guard count v) eqn:Hg.
    + apply guard_true in Hg as [_ Hlt].
      unfold iteration, attempt. rewrite Hpg, Hfind. simpl.
      apply IH; simpl; try assumption; lia.
    + assert (scroll_attempts v = max_scroll_attempts) as Heq.
      { unfold guard in Hg. rewrite Hc in Hg. simpl in Hg.
        apply andb_false_iff in Hg as [Hg | Hg].
        - apply Z.ltb_ge in Hg. lia.
        - apply Z.ltb_ge in Hg. lia. }
      eauto.
Qed.

(** When the containers of the listing cannot be looked up, the loop
    takes its fifty attempts at once, without a scroll and so without a
    pause in between, and returns no link. *)
Theorem blocked_listing_gives_up (pg : surface) (e : exn) :
  (0 < count)%Z ->
  find_elements pg = Raise e ->
  exists v,
    collect_post_links h hashes count pg = Some ([], v)
    /\ log v = []
    /\ scroll_attempts v = 50%Z.
Proof.
  intros Hpos Hfind. unfold collect_post_links.
  destruct (blocked_loop pg e (Z.to_nat max_scroll_attempts) (init pg) Hfind Hpos)
    as (v & Hloop & Hc & Hl & Ha); try reflexivity;
    try (unfold max_scroll_attempts; simpl; lia).
  exists v. rewrite Hloop, Hc. split; [| auto].
  f_equal. f_equal. unfold slice_to. destruct (0 <=? count)%Z; apply take_nil.
Qed.

(** A listing that shows fewer than [count] unseen links and whose
    extent does not change on scrolling is returned whole: the loop
    scrolls once and stops. *)
Theorem exhausted_listing_returned_whole (pg pg' : surface) (cs : list container)
    (extent : Z) :
  (0 < count)%Z ->
  find_elements pg = Ok cs ->
  forallb (readable pg) cs = true ->
  (Z.of_nat (length (first_occurrences (List.filter (unseen h hashes) (visible pg cs))))
   < count)%Z ->
  scroll_height pg = Ok extent ->
  scroll_to pg = (Ok tt, pg') ->
  scroll_height pg' = Ok extent ->
  exists v,
    collect_post_links h hashes count pg = Some (collected_links v, v)
    /\ map url (collected_links v)
       = first_occurrences (List.filter (unseen h hashes) (visible pg cs))
    /\ scrolls (log v) = 1%nat
    /\ scroll_attempts v = 1%Z.
Proof.
  intros Hpos Hfind Hread Hfew Hh1 Hto Hh2.
  pose proof (consistent_init h hashes count pg Hpos) as Hv.
  assert (Hroom : room count (init pg)) by (unfold room; simpl; lia).
  assert (Hg : guard count (init pg) = true).
  { apply guard_true. split; [assumption |]. unfold max_scroll_attempts; simpl. lia. }
  destruct (scan_spec h hashes count cs (init pg) Hv Hroom) as [Hc1 Hr].
  destruct (scan_frame h hashes count cs (init pg)) as (Hpg & Hatt & Hs).
  destruct (scan_hrefs h hashes count cs (init pg)) as [more Hmore].
  assert (Hloop : exists v,
            while_loop h hashes count (Z.to_nat max_scroll_attempts) (init pg) = Some v
            /\ consistent h hashes count v
            /\ map url (collected_links v)
               = first_occurrences (List.filter (unseen h hashes) (visible pg cs))
            /\ scrolls (log v) = 1%nat /\ scroll_attempts v = 1%Z).
  { change (Z.to_nat max_scroll_attempts) with (S 49). simpl. rewrite Hg.
    unfold iteration, attempt. simpl. rewrite Hfind.
    destruct (scan h hashes count cs (init pg)) as [[u | e] v1]; simpl in *.
    - destruct Hr as [He | [Hroom1 Hhrefs]].
      + exfalso. apply enough_true in He.
        destruct Hc1 as (Hu & _). unfold urls in Hu.
        assert (Hlen : length (collected_links v1)
                       = length (first_occurrences
                                   (List.filter (unseen h hashes) (hrefs (log v1))))).
        { rewrite <- Hu, length_map. reflexivity. }
        rewrite Hmore, List.filter_app in Hfew.
        destruct (first_occurrences_app
                    (List.filter (unseen h hashes) (hrefs (log v1)))
                    (List.filter (unseen h hashes) more)) as [r Hr'].
        rewrite Hr', length_app in Hfew. lia.
      + apply enough_false in Hroom1 as He. rewrite He.
        unfold scroll_and_wait. simpl. rewrite Hpg, Hh1, Hto. simpl.
        rewrite Hh2, Z.eqb_refl. simpl.
        eexists. split; [reflexivity |]. simpl.
        split.
        { apply (consistent_ext h hashes count (record_event Ev_scroll v1)); try reflexivity.
          apply consistent_scroll; assumption. }
        split.
        { destruct Hc1 as (Hu & _). unfold urls in Hu. rewrite Hu, Hhrefs. reflexivity. }
        rewrite scrolls_app, Hs, Hatt. simpl. split; reflexivity.
    - exfalso. destruct Hr as [_ (c & Hin & Hc')].
      rewrite List.forallb_forall in Hread.
      apply list_elem_of_In, Hread in Hin. congruence. }
  destruct Hloop as (v & Hloop & Hc & Hu & Hs1 & Ha1).
  exists v. unfold collect_post_links. rewrite Hloop.
  split; [| auto].
  f_equal. f_equal. apply slice_to_all. apply Hc.
Qed.

(** A link whose item was saved is never discovered again, in the same
    run or after a restart: its hash is in the set every later
    discovery filters with. *)
Theorem saved_link_not_rediscovered (now : string) (loaded : result item_page)
    (link : string) (preview : option string) (p : post_data)
    (w : faults) (s s2 : state) (n : Z) (pg : surface) :
  extract_post_data h now loaded link preview = Some p ->
  (save_post w p s).1 = Ok n ->
  _setup_community_dir (save_post w p s).2 = Ok s2 ->
  h link ∈ collected_hashes (save_post w p s).2
  /\ h link ∈ collected_hashes s2
  /\ exists links v,
       collect_post_links h (collected_hashes s2) count pg = Some (links, v)
       /\ link ∉ map url links.
Proof.
  intros Hp Hn Hs2.
  assert (Hhash : hash p = h link).
  { unfold extract_post_data in Hp.
    destruct loaded as [ipg |]; simpl in Hp; [| discriminate].
    destruct (read_title ipg); simpl in Hp; [| discriminate].
    destruct (read_description ipg); simpl in Hp; [| discriminate].
    destruct (load_comments ipg); simpl in Hp; [| discriminate].
    destruct (close_tab ipg); simpl in Hp; [| discriminate].
    injection Hp as <-. reflexivity. }
  destruct (save_post_ok w p s n Hn) as (_ & _ & _ & _ & Hsaved & _).
  assert (Hin : h link ∈ collected_hashes (save_post w p s).2).
  { rewrite Hsaved, Hhash. apply elem_of_union_l, elem_of_singleton. reflexivity. }
  rewrite (setup_after_save w p s n Hn) in Hs2.
  assert (Heq : s2 = (save_post w p s).2) by congruence.
  rewrite Heq.
  split; [assumption |]. split; [assumption |].
  destruct (collect_post_links_total h (collected_hashes (save_post w p s).2) count pg)
    as (v & Hv & _ & Hc & Hinit).
  exists (collected_links v), v. split; [assumption |].
  destruct (Z.lt_ge_cases 0 count) as [Hpos | Hle].
  - destruct (Hc Hpos) as (Hu & _). unfold urls in Hu. rewrite Hu.
    intros Hl. apply first_occurrences_unseen in Hl as (_ & _ & Hfresh).
    contradiction.
  - rewrite (Hinit Hle). simpl. apply not_elem_of_nil.
Qed.

End ListingFacts.

(** ** Counting comments *)

Lemma count_replies_bound :
  forall e c, _extract_single_comment e = Some c ->
              (count_replies c <= elements_below e)%nat.
Proof.
  fix IH 1. intros [body faceplate nested] c. simpl.
  destruct (comment_text body); [| discriminate].
  destruct (comment_votes faceplate); [| discriminate].
  intros [= <-]. simpl. destruct nested as [l | e]; simpl; [| lia].
  induction l as [| x l IHl]; simpl; [lia |].
  destruct (_extract_single_comment x) as [c |] eqn:Hx; simpl;
    change (list_omap comment_elem comment _extract_single_comment l)
      with (omap _extract_single_comment l).
  - apply IH in Hx. lia.
  - lia.
Qed.

Lemma count_comments_app (l1 l2 : list comment) :
  _count_comments (l1 ++ l2) = (_count_comments l1 + _count_comments l2)%nat.
Proof.
  unfold _count_comments. rewrite length_app, map_app, sum_list_with_app. lia.
Qed.

(** The number [_count_comments] reports for an extracted tree never
    exceeds the number of comment elements that were looked up, and it
    adds up over the parts of a list. *)
Theorem count_comments_bound (pg : item_page) :
  (_count_comments (extract_comments pg)
   <= match comment_tree pg with
      | Ok l => length l + sum_list (map elements_below l)
      | Raise _ => 0
      end)%nat
  /\ (forall l1 l2,
        _count_comments (l1 ++ l2) = (_count_comments l1 + _count_comments l2)%nat)
  /\ (length (extract_comments pg) <= _count_comments (extract_comments pg))%nat.
Proof.
  split; [| split; [apply count_comments_app | unfold _count_comments; apply Nat.le_add_r]].
  unfold extract_comments, _count_comments.
  destruct (comment_tree pg) as [l | e]; [| simpl; lia].
  induction l as [| x l IHl]; simpl; [lia |].
  destruct (_extract_single_comment x) as [c |] eqn:Hx; simpl;
    change (list_omap comment_elem comment _extract_single_comment l)
      with (omap _extract_single_comment l).
  - apply count_replies_bound in Hx. lia.
  - lia.
Qed.

(** ** The scope of a collection URL *)

Lemma take_drop_while (f : ascii -> bool) (s : string) :
  take_while f s +:+ drop_while f s = s.
Proof.
  induction s as [| c s IH]; simpl; [reflexivity |].
  destruct (f c); [rewrite append_cons, IH |]; reflexivity.
Qed.

Lemma all_chars_take_while (f : ascii -> bool) (s : string) :
  all_chars f (take_while f s) = true.
Proof.
  induction s as [| c s IH]; simpl; [reflexivity |].
  destruct (f c) eqn:Hc; simpl; [rewrite Hc |]; auto.
Qed.

Lemma take_while_drop_while (f : ascii -> bool) (s : string) :
  take_while f (drop_while f s) = EmptyString.
Proof.
  induction s as [| c s IH]; simpl; [reflexivity |].
  destruct (f c) eqn:Hc; [assumption |]. simpl. rewrite Hc. reflexivity.
Qed.

Lemma after_append (p s t : string) : after p s = Some t <-> s = p +:+ t.
Proof.
  revert s. induction p as [| a p IH]; intros s; simpl.
  - split; [intros [= ->]; reflexivity | intros ->; reflexivity].
  - destruct s as [| b s]; [split; discriminate |].
    rewrite append_cons.
    destruct (Ascii.eqb_spec a b) as [-> | Hne].
    + rewrite IH. split; [intros ->; reflexivity | intros [= ->]; reflexivity].
    + split; [discriminate | intros [= <- _]; contradiction].
Qed.

Lemma search_community_sound (url name : string) :
  search_community url = Some name ->
  name <> EmptyString
  /\ all_chars (none_of ["/"; "?"]%char) name = true
  /\ exists pre post,
       url = pre +:+ "/r/" +:+ name +:+ post
       /\ take_while (none_of ["/"; "?"]%char) post = EmptyString.
Proof.
  induction url as [| c url IH]; [discriminate |].
  assert (Hrest : search_community url = Some name ->
                  name <> EmptyString
                  /\ all_chars (none_of ["/"; "?"]%char) name = true
                  /\ exists pre post,
                       String c url = pre +:+ "/r/" +:+ name +:+ post
                       /\ take_while (none_of ["/"; "?"]%char) post = EmptyString).
  { intros Hs. destruct (IH Hs) as (Hne & Hall & pre & post & -> & Hpost).
    repeat split; try assumption. exists (String c pre), post. auto. }
  cbn [search_community].
  destruct (after "/r/" (String c url)) as [tail |] eqn:Ha; [| assumption].
  destruct (take_while (none_of ["/"; "?"]%char) tail) as [| d run] eqn:Ht; [assumption |].
  intros [= <-]. apply after_append in Ha.
  split; [discriminate |]. split; [rewrite <- Ht; apply all_chars_take_while |].
  exists EmptyString, (drop_while (none_of ["/"; "?"]%char) tail).
  split; [| apply take_while_drop_while].
  rewrite Ha, <- Ht, take_drop_while. reflexivity.
Qed.

Lemma search_community_tail (c : ascii) (url : string) :
  search_community (String c url) = None -> search_community url = None.
Proof.
  cbn [search_community].
  destruct (after "/r/" (String c url)); [| auto].
  destruct (take_while _ _); [auto | discriminate].
Qed.

Lemma search_community_complete (url : string) :
  search_community url = None ->
  forall pre c post,
    none_of ["/"; "?"]%char c = true -> url <> pre +:+ "/r/" +:+ String c post.
Proof.
  induction url as [| a url IH]; intros Hs pre c post Hc.
  - destruct pre; discriminate.
  - destruct pre as [| b pre].
    + intros Heq. cbn [search_community] in Hs.
      assert (Ha : after "/r/" (String a url) = Some (String c post))
        by (apply after_append; exact Heq).
      rewrite Ha in Hs. cbn [take_while] in Hs. rewrite Hc in Hs. discriminate.
    + rewrite append_cons. intros [= _ Heq].
      apply search_community_tail in Hs. exact (IH Hs pre c post Hc Heq).
Qed.

Lemma take_while_app_all (f : ascii -> bool) (a b : string) :
  all_chars f a = true -> take_while f (a +:+ b) = a +:+ take_while f b.
Proof.
  induction a as [| c a IH]; [reflexivity |].
  simpl. rewrite andb_true_iff. intros [Hc Ha].
  rewrite !append_cons. simpl. rewrite Hc, IH by assumption. reflexivity.
Qed.

Lemma append_nil_r (a : string) : a +:+ EmptyString = a.
Proof.
  induction a as [| c a IH]; [reflexivity |]. rewrite append_cons, IH. reflexivity.
Qed.

Lemma head_match (s tail : string) (c : ascii) (run : string) :
  after "/r/" s = Some tail ->
  take_while (none_of ["/"; "?"]%char) tail = String c run ->
  exists rest, s = "/r/" +:+ String c rest /\ none_of ["/"; "?"]%char c = true.
Proof.
  intros Ha Ht. apply after_append in Ha.
  destruct tail as [| d tail]; [discriminate |].
  simpl in Ht. destruct (none_of ["/"; "?"]%char d) eqn:Hd; [| discriminate].
  injection Ht as -> _. eauto.
Qed.

Lemma head_no_match (s : string) (c : ascii) (rest : string) :
  none_of ["/"; "?"]%char c = true ->
  s = "/r/" +:+ String c rest ->
  exists tail run,
    after "/r/" s = Some tail
    /\ take_while (none_of ["/"; "?"]%char) tail = String c run.
Proof.
  intros Hc Hs. exists (String c rest). eexists.
  split; [apply after_append; assumption |].
  simpl. rewrite Hc. reflexivity.
Qed.

Lemma search_community_first (url name : string) :
  search_community url = Some name -> exists pre post, names_community url pre name post.
Proof.
  unfold names_community.
  induction url as [| a url IH]; [discriminate |].
  assert (Hrest :
    (forall c rest, none_of ["/"; "?"]%char c = true ->
                    String a url <> "/r/" +:+ String c rest) ->
    search_community url = Some name ->
    exists pre post,
      String a url = pre +:+ "/r/" +:+ name +:+ post
      /\ name <> EmptyString
      /\ all_chars (none_of ["/"; "?"]%char) name = true
      /\ take_while (none_of ["/"; "?"]%char) post = EmptyString
      /\ forall pre1 c rest,
           none_of ["/"; "?"]%char c = true ->
           String a url = pre1 +:+ "/r/" +:+ String c rest ->
           (String.length pre <= String.length pre1)%nat).
  { intros Hhead Hs. destruct (IH Hs) as (pre & post & Hu & Hne & Hall & Hpost & Hleft).
    exists (String a pre), post. rewrite append_cons, <- Hu.
    repeat split; try assumption.
    intros pre1 c rest Hc Heq. destruct pre1 as [| b pre1].
    - exfalso. exact (Hhead c rest Hc Heq).
    - rewrite append_cons in Heq. injection Heq as _ Heq.
      simpl. apply le_n_S. exact (Hleft pre1 c rest Hc Heq). }
  cbn [search_community].
  destruct (after "/r/" (String a url)) as [tail |] eqn:Ha.
  - destruct (take_while (none_of ["/"; "?"]%char) tail) as [| d run] eqn:Ht.
    + apply Hrest. intros c rest Hc Heq.
      destruct (head_no_match _ c rest Hc Heq) as (tail' & run' & Ha' & Ht').
      congruence.
    + intros [= <-]. pose proof Ha as Ha'. apply after_append in Ha'.
      exists EmptyString, (drop_while (none_of ["/"; "?"]%char) tail).
      split; [rewrite Ha', <- Ht, take_drop_while; reflexivity |].
      split; [discriminate |].
      split; [rewrite <- Ht; apply all_chars_take_while |].
      split; [apply take_while_drop_while |].
      intros pre1 c rest _ _. simpl. lia.
  - apply Hrest. intros c rest Hc Heq.
    destruct (head_no_match _ c rest Hc Heq) as (tail' & run' & Ha' & _).
    congruence.
Qed.

Lemma search_community_finds (pre : string) :
  forall url name post,
    names_community url pre name post -> search_community url = Some name.
Proof.
  unfold names_community.
  induction pre as [| a pre IH]; intros url name post (Hu & Hne & Hall & Hpost & Hleft).
  - change (EmptyString +:+ "/r/" +:+ name +:+ post) with ("/r/" +:+ name +:+ post) in Hu.
    assert (Ha : after "/r/" url = Some (name +:+ post)) by (apply after_append; exact Hu).
    destruct url as [| b url]; [discriminate |].
    cbn [search_community]. rewrite Ha.
    rewrite take_while_app_all, Hpost, append_nil_r by assumption.
    destruct name; [contradiction | reflexivity].
  - rewrite append_cons in Hu. subst url. cbn [search_community].
    assert (Htail : search_community (pre +:+ "/r/" +:+ name +:+ post) = Some name).
    { apply (IH _ name post). repeat split; try assumption.
      intros pre1 c rest Hc Heq.
      assert (Hle : (String.length (String a pre) <= String.length (String a pre1))%nat)
        by (apply (Hleft (String a pre1) c rest Hc); rewrite Heq; reflexivity).
      simpl in Hle. lia. }
    destruct (after "/r/" (String a (pre +:+ "/r/" +:+ name +:+ post))) as [tail |] eqn:Ha;
      [| assumption].
    destruct (take_while (none_of ["/"; "?"]%char) tail) as [| d run] eqn:Ht; [assumption |].
    exfalso. destruct (head_match _ tail d run Ha Ht) as (rest & Heq & Hd).
    specialize (Hleft EmptyString d rest Hd Heq). simpl in Hleft. lia.
Qed.

(** The community of a scope is read off the collection URL.  Where
    the URL names a community (the longest run of characters other than
    [/] and [?] behind the first [/r/] that has such a character behind
    it), the directory is [r_] followed by that name; where the URL has
    no [/r/] with such a character behind it, the directory is
    [r_unknown]; and one of the two is always the case. *)
Theorem community_read_from_url (url : string) :
  (forall pre name post,
     names_community url pre name post -> community_base url = "r_" +:+ name)
  /\ ((forall pre c rest,
         none_of ["/"; "?"]%char c = true -> url <> pre +:+ "/r/" +:+ String c rest) ->
      community_base url = "r_unknown")
  /\ ((exists pre name post, names_community url pre name post)
      \/ (forall pre c rest,
            none_of ["/"; "?"]%char c = true -> url <> pre +:+ "/r/" +:+ String c rest)).
Proof.
  split; [| split].
  - intros pre name post Hn. unfold community_base.
    rewrite (search_community_finds pre url name post Hn). reflexivity.
  - intros Hnone. unfold community_base.
    destruct (search_community url) as [name |] eqn:Hs; [| reflexivity].
    exfalso. destruct (search_community_first url name Hs)
      as (pre & post & Hu & Hne & _).
    destruct name as [| c name]; [contradiction |].
    destruct (search_community_sound url _ Hs) as (_ & Hall & _).
    simpl in Hall. apply andb_true_iff in Hall as [Hc _].
    apply (Hnone pre c (name +:+ post) Hc). rewrite Hu, !append_cons. reflexivity.
  - destruct (search_community url) as [name |] eqn:Hs.
    + left. destruct (search_community_first url name Hs) as (pre & post & Hn). eauto.
    + right. apply search_community_complete. assumption.
Qed.








(** ** Scanning folders in merge.py *)

Section ScanFacts.

Variable repr : json -> string.
Variable json_dumps : json -> result string.

Abbreviation process_file := (Merge._process_json_file repr json_dumps).
Abbreviation scan_files := (Merge._scan_category_folder repr json_dumps).
Abbreviation scan_folder := (Merge.scan_folder repr json_dumps).
Abbreviation scan_categories := (Merge.scan_categories repr json_dumps).
Abbreviation scan_community := (Merge.scan_community repr json_dumps).
Abbreviation scan_communities := (Merge.scan_communities repr json_dumps).
Abbreviation numbered := Merge.numbered.
Abbreviation placed := Merge.placed.

Lemma process_file_row (next : Z) (loaded : result json) (cat : string) (r : Merge.record) :
  (process_file next loaded cat).1 = Some r ->
  Merge.auto_id r = next /\ Merge.category r = cat
  /\ (process_file next loaded cat).2 = (next + 1)%Z.
Proof.
  unfold Merge._process_json_file.
  destruct (bind loaded (Merge.build_record repr json_dumps next cat)) as [r' | e] eqn:Hb;
    simpl; [| discriminate].
  intros [= ->]. split; [| split; [| reflexivity]];
    unfold Merge.build_record in Hb; destruct loaded as [data |]; simpl in Hb;
    try discriminate;
    repeat match type of Hb with
      | bind ?x _ = Ok _ => destruct x; simpl in Hb; [| discriminate]
      end;
    injection Hb as <-; reflexivity.
Qed.

Lemma process_file_none (next : Z) (loaded : result json) (cat : string) :
  (process_file next loaded cat).1 = None -> (process_file next loaded cat).2 = next.
Proof.
  unfold Merge._process_json_file.
  destruct (bind loaded _); simpl; [discriminate | reflexivity].
Qed.

Lemma scan_files_numbered (files : list (result json)) (next : Z) (cat : string) :
  numbered next (scan_files next files cat)
  /\ Forall (fun r => Merge.category r = cat) (scan_files next files cat).1.1.
Proof.
  revert next. induction files as [| f files IH]; intros next.
  - unfold Merge.numbered. simpl. repeat split; try lia. constructor.
  - simpl.
    destruct (process_file next f cat) as [[r |] next'] eqn:Hp.
    + assert (Hr : (process_file next f cat).1 = Some r) by (rewrite Hp; reflexivity).
      destruct (process_file_row _ _ _ _ Hr) as (Hid & Hcat & Hn).
      rewrite Hp in Hn. simpl in Hn. subst next'.
      destruct (IH (next + 1)%Z) as [(Hids & Hcount & Hlast) Hcats].
      destruct (scan_files (next + 1)%Z files cat) as [[rs n] last].
      unfold Merge.numbered in *. simpl in *.
      split; [| constructor; assumption].
      split; [| split; lia].
      rewrite Hid, Hids, Nat2Z.inj_succ, (seqZ_cons next) by lia.
      f_equal. f_equal; lia.
    + assert (Hr : (process_file next f cat).1 = None) by (rewrite Hp; reflexivity).
      apply process_file_none in Hr. rewrite Hp in Hr. simpl in Hr. subst next'.
      apply IH.
Qed.

Lemma numbered_app (next : Z) (rs rs' : list Merge.record) (n n' mid last : Z) :
  numbered next (rs, n, mid) -> numbered mid (rs', n', last) ->
  numbered next (rs ++ rs', (n + n')%Z, last).
Proof.
  unfold Merge.numbered. simpl. intros (Hid & Hn & Hmid) (Hid' & Hn' & Hlast).
  rewrite map_app, length_app, Hid, Hid', Nat2Z.inj_add, Hmid.
  split; [| split; lia].
  rewrite seqZ_app by lia. reflexivity.
Qed.

Lemma scan_categories_numbered (cats : list (string * Merge.listing)) (next : Z) :
  numbered next (scan_categories next cats)
  /\ Forall (fun r => exists files, (Merge.category r, files) ∈ cats)
       (scan_categories next cats).1.1.
Proof.
  revert next. induction cats as [| [name files] cats IH]; intros next.
  - unfold Merge.numbered. simpl. repeat split; try lia. constructor.
  - simpl. unfold Merge.scan_folder.
    destruct (scan_files_numbered (Merge.without_trackers files) next name) as [Hn Hc].
    destruct (scan_files next (Merge.without_trackers files) name) as [[rs n] mid].
    destruct (IH mid) as [Hn' Hc'].
    destruct (scan_categories mid cats) as [[rs' n'] last]. simpl in *.
    split; [eapply numbered_app; eassumption |].
    apply Forall_app. split.
    + eapply Forall_impl; [exact Hc |]. intros r ->. exists files. left.
    + eapply Forall_impl; [exact Hc' |]. intros r [fs Hin]. exists fs. right. assumption.
Qed.

Lemma scan_community_numbered (c : Merge.community) (next : Z) :
  numbered next (scan_community next c)
  /\ Forall (placed c) (scan_community next c).1.1.
Proof.
  unfold Merge.scan_community, Merge.placed.
  destruct (Merge.category_folders c) as [| cat cats] eqn:Hcats.
  - unfold Merge.scan_folder.
    destruct (scan_files_numbered (Merge.without_trackers (Merge.own_files c)) next
                (Merge.community_name c)) as [Hn Hc].
    split; [assumption |]. eapply Forall_impl; [exact Hc |]. auto.
  - destruct (scan_categories_numbered (cat :: cats) next) as [Hn Hc].
    split; [assumption |]. eapply Forall_impl; [exact Hc |]. auto.
Qed.

Lemma scan_communities_numbered (cs : list Merge.community) (next : Z) :
  numbered next (scan_communities next cs)
  /\ Forall (fun r => exists c, c ∈ cs /\ placed c r) (scan_communities next cs).1.1.
Proof.
  revert next. induction cs as [| c cs IH]; intros next.
  - unfold Merge.numbered. simpl. repeat split; try lia. constructor.
  - simpl.
    destruct (scan_community_numbered c next) as [Hn Hc].
    destruct (scan_community next c) as [[rs n] mid].
    destruct (IH mid) as [Hn' Hc'].
    destruct (scan_communities mid cs) as [[rs' n'] last]. simpl in *.
    split; [eapply numbered_app; eassumption |].
    apply Forall_app. split.
    + eapply Forall_impl; [exact Hc |]. intros r Hr. exists c. split; [left | assumption].
    + eapply Forall_impl; [exact Hc' |]. intros r (c' & Hin & Hr). exists c'.
      split; [right |]; assumption.
Qed.

Lemma process_file_usable (next : Z) (loaded : result json) (cat : string) :
  (process_file next loaded cat).1 = None <-> Merge.usable loaded = false.
Proof.
  unfold Merge._process_json_file, Merge.usable.
  destruct loaded as [[| b | n | s | l | d] | e]; simpl; try (split; reflexivity).
  unfold Merge.build_record. simpl.
  destruct (default JNull (assoc "comments" d)) as [| b | n | s | l | d']; simpl.
  - split; discriminate.
  - destruct b; simpl; split; auto; discriminate.
  - destruct (n =? 0)%Z; simpl; split; auto; discriminate.
  - destruct s; simpl; [split; discriminate |].
    destruct (json_dumps _); simpl; split; discriminate.
  - destruct l; simpl; [split; discriminate |].
    destruct (json_dumps _); simpl; split; discriminate.
  - destruct d'; simpl; [split; discriminate |].
    destruct (json_dumps _); simpl; split; discriminate.
Qed.

Lemma scan_files_skip (l1 l2 : list (result json)) (bad : result json)
    (next : Z) (cat : string) :
  Merge.usable bad = false ->
  scan_files next (l1 ++ bad :: l2) cat = scan_files next (l1 ++ l2) cat.
Proof.
  intros Hbad. revert next. induction l1 as [| f l1 IH]; intros next; simpl.
  - pose proof (proj2 (process_file_usable next bad cat) Hbad) as Hnone.
    pose proof (process_file_none next bad cat Hnone) as Hnext.
    destruct (process_file next bad cat) as [[r |] next']; simpl in *;
      [discriminate | subst; reflexivity].
  - destruct (process_file next f cat) as [[r |] next']; rewrite IH; reflexivity.
Qed.

(** The rows [merge_data] collects are numbered 1, 2, ... in the order
    collected, and the total it returns is their number; it returns
    early only when the data directory is missing. *)
Theorem merge_rows_numbered (root : option (list Merge.community)) :
  match Merge.merge_data repr json_dumps root with
  | Some (rs, total) =>
      map Merge.auto_id rs = seqZ 1 (Z.of_nat (length rs))
      /\ total = Z.of_nat (length rs)
  | None => root = None
  end.
Proof.
  unfold Merge.merge_data. destruct root as [cs |]; [| reflexivity].
  destruct (scan_communities_numbered cs 1) as [(Hid & Hn & _) _].
  destruct (scan_communities 1 cs) as [[rs n] last]. simpl in *. auto.
Qed.

(** A file becomes a row exactly when it loads, holds an object, and
    has under ['comments'] neither [true] nor a number other than zero;
    any other file is skipped, and the scan goes on as if the file were
    not there: the rows and their numbers are the same. *)
Theorem unusable_files_are_skipped (next : Z) (cat : string) :
  (forall loaded,
     (process_file next loaded cat).1 = None <-> Merge.usable loaded = false)
  /\ (forall loaded,
        (process_file next loaded cat).2
        = if Merge.usable loaded then (next + 1)%Z else next)
  /\ (forall l1 bad l2,
        Merge.usable bad = false ->
        scan_files next (l1 ++ bad :: l2) cat = scan_files next (l1 ++ l2) cat).
Proof.
  split; [intros; apply process_file_usable |].
  split; [| intros; apply scan_files_skip; assumption].
  intros loaded. destruct (Merge.usable loaded) eqn:Hu.
  - destruct (process_file next loaded cat) as [[r |] n] eqn:Hp.
    + assert (Hr : (process_file next loaded cat).1 = Some r) by (rewrite Hp; reflexivity).
      destruct (process_file_row _ _ _ _ Hr) as (_ & _ & Hn). rewrite Hp in Hn. exact Hn.
    + assert (Hr : (process_file next loaded cat).1 = None) by (rewrite Hp; reflexivity).
      apply process_file_usable in Hr. congruence.
  - apply process_file_none, process_file_usable. assumption.
Qed.

(** Every row carries as its category the name of a sub-directory of a
    community, or the name of a community without sub-directories.
    The files that lie directly in a community with sub-directories are
    not read, and neither are the two tracker files of a folder. *)
Theorem category_inference (cs : list Merge.community) :
  match Merge.merge_data repr json_dumps (Some cs) with
  | Some (rs, _) => Forall (fun r => exists c, c ∈ cs /\ Merge.placed c r) rs
  | None => False
  end
  /\ (forall next c files,
        Merge.category_folders c <> [] ->
        scan_community next c
        = scan_community next
            {| Merge.community_name := Merge.community_name c;
               Merge.category_folders := Merge.category_folders c;
               Merge.own_files := files |})
  /\ (forall next cat l1 l2 name loaded,
        Merge.is_tracker name = true ->
        scan_folder next (l1 ++ (name, loaded) :: l2) cat
        = scan_folder next (l1 ++ l2) cat).
Proof.
  split; [| split].
  - unfold Merge.merge_data.
    destruct (scan_communities_numbered cs 1) as [_ Hc].
    destruct (scan_communities 1 cs) as [[rs n] last]. exact Hc.
  - intros next c files Hc. unfold Merge.scan_community. simpl.
    destruct (Merge.category_folders c); [contradiction | reflexivity].
  - intros next cat l1 l2 name loaded Hn. unfold Merge.scan_folder, Merge.without_trackers.
    rewrite !List.filter_app. simpl. rewrite Hn. reflexivity.
Qed.

(** merge.py leaves with status 0 exactly when the command line asks
    for the help text, or it parses, the data directory exists, at least
    one file in it becomes a row, and the output file is written. *)
Theorem merge_exit_status (args : Merge.parsed (string * string))
    (root : option (list Merge.community)) (written : bool) :
  Merge.main args (Merge.merge_data repr json_dumps root) written = 0%Z
  <-> args = Merge.Help
      \/ ((exists a, args = Merge.Args a)
          /\ (exists cs rs total,
                root = Some cs
                /\ Merge.merge_data repr json_dumps root = Some (rs, total)
                /\ rs <> [])
          /\ written = true).
Proof.
  pose proof (merge_rows_numbered root) as Hm.
  unfold Merge.main, Merge.run, Merge.write_csv.
  destruct args as [| | a].
  { split; [discriminate | intros [Hh | [[a Ha] _]]; discriminate]. }
  { split; [auto | reflexivity]. }
  destruct root as [cs |]; simpl in *.
  2:{ split; [discriminate |].
      intros [Hh | (_ & (cs & rs & t & Hr & _) & _)]; discriminate. }
  destruct (Merge.scan_communities repr json_dumps 1 cs) as [[rs total] last].
  destruct Hm as [_ ->].
  destruct rs as [| r rs]; simpl.
  - split; [discriminate |].
    intros [Hh | (_ & (cs' & rs' & t & _ & [= <- _] & Hne) & _)];
      [discriminate | contradiction].
  - destruct written; simpl.
    + split; [| reflexivity]. intros _. right. split; [eauto |]. split; [| reflexivity].
      exists cs, (r :: rs), (Z.of_nat (S (length rs))). repeat split. discriminate.
    + split; [discriminate | intros [Hh | (_ & _ & Hw)]; discriminate].
Qed.

(** An item file written by fetch.py flattens to a row that keeps the
    title and the body of the item as they are, holds the score and the
    link stripped, has ["[]"] for an item without comments, and puts the
    empty string wherever the item has [None]. *)
Theorem saved_item_flattens (h : string -> string) (now : string)
    (loaded : result item_page) (link : string) (preview : option string)
    (p : post_data) (n next : Z) (cat : string) :
  extract_post_data h now loaded link preview = Some p ->
  exists r,
    process_file next (load_item (Holds (set_id p n))) cat = (Some r, (next + 1)%Z)
    /\ Merge.auto_id r = next
    /\ Merge.category r = cat
    /\ Merge.title r = default EmptyString (title p)
    /\ Merge.description r = default EmptyString (description p)
    /\ Merge.votes r = default EmptyString (strip <$> votes p)
    /\ Merge.url r = strip link
    /\ (comments p = [] -> Merge.comments r = "[]")
    /\ (comments p <> [] ->
        Merge.comments r
        = match json_dumps (JList (map comment_json (comments p))) with
          | Ok s => s
          | Raise _ => "[]"
          end).
Proof.
  intros Hp.
  destruct (extracted_item_tidy h now loaded link preview p Hp) as (Ht & Hd & Hurl).
  assert (Hstr : forall s, Merge._handle_null_value repr (JStr s) "" = strip s).
  { intros s. simpl. destruct (String.eqb_spec (strip s) ""); congruence. }
  assert (Hopt : forall o, Merge._handle_null_value repr (opt_json o) ""
                           = default EmptyString (strip <$> o)).
  { intros [s |]; [apply Hstr | reflexivity]. }
  assert (Hsame : forall o, (forall t, o = Some t -> strip t = t) ->
                            default EmptyString (strip <$> o) = default EmptyString o).
  { intros [t |] Ho; simpl; [apply Ho |]; reflexivity. }
  set (cs := match comments p with
             | [] => "[]"
             | _ => match json_dumps (JList (map comment_json (comments p))) with
                    | Ok js => js
                    | Raise _ => "[]"
                    end
             end).
  assert (Hb : Merge.build_record repr json_dumps next cat (item_json (set_id p n))
               = Ok {| Merge.auto_id := next; Merge.category := cat;
                       Merge.title := default EmptyString (title p);
                       Merge.description := default EmptyString (description p);
                       Merge.votes := default EmptyString (strip <$> votes p);
                       Merge.comments := cs;
                       Merge.url := strip link |}).
  { unfold Merge.build_record, item_json.
    cbn -[Merge._handle_null_value Merge._comments_to_json_string].
    rewrite !Hopt, Hstr, Hurl, (Hsame _ Ht), (Hsame _ Hd).
    unfold cs. destruct (comments p) as [| c l]; [reflexivity |].
    rewrite comments_list by discriminate.
    reflexivity. }
  unfold Merge._process_json_file, load_item. cbn [bind]. rewrite Hb.
  eexists. split; [reflexivity |]. cbn.
  repeat split; try reflexivity.
  - intros Hc. unfold cs. rewrite Hc. reflexivity.
  - intros Hc. unfold cs. destruct (comments p); [contradiction | reflexivity].
Qed.

End ScanFacts.

(** ** Item files *)

Lemma write_item_same (w : write_outcome) (s : state) (n : Z) (p q : post_data) :
  item_file (write_item w s n p).2 n = Holds q ->
  (write_item w s n p).1 = Ok tt \/ item_file s n = Holds q.
Proof.
  unfold write_item, write_file, item_file at 1.
  destruct w; simpl.
  - auto.
  - destruct (item_file s n) eqn:Hf; simpl.
    + unfold item_file in Hf. rewrite Hf. discriminate.
    + rewrite lookup_insert_eq. discriminate.
    + rewrite lookup_insert_eq. simpl. auto.
  - rewrite lookup_insert_eq. discriminate.
Qed.

Lemma write_item_next_id (w : write_outcome) (s : state) (n : Z) (p : post_data) :
  next_id (write_item w s n p).2 = next_id s.
Proof. unfold write_item. destruct (write_file _ _ _). reflexivity. Qed.

Lemma save_post_unused_above (w : faults) (p : post_data) (s : state) :
  unused_above s ->
  unused_above (save_post w p s).2
  /\ (forall m q, item_file s m = Holds q -> item_file (save_post w p s).2 m = Holds q).
Proof.
  intros Hs.
  assert (Hkeep : forall m q, item_file s m = Holds q ->
                              item_file (save_post w p s).2 m = Holds q).
  { intros m q Hm. rewrite save_post_other_files; [assumption |].
    intros ->. apply (Hs (next_id s) q); [lia | assumption]. }
  split; [| assumption].
  intros n q Hn Hq.
  pose proof (save_post_next_id_range w p s) as Hr.
  destruct (Z.eq_dec n (next_id s)) as [-> | Hne].
  2:{ rewrite save_post_other_files in Hq by assumption.
      apply (Hs n q); [lia | assumption]. }
  assert (Hadv : next_id (save_post w p s).2 = next_id s) by lia.
  clear Hn Hr Hkeep. revert Hadv Hq. unfold save_post. destruct (title p).
  2:{ simpl. intros _ Hq. apply (Hs (next_id s) q); [lia | assumption]. }
  pose proof (write_item_same (on_item w) s (next_id s) (set_id p (next_id s)) q) as Hw.
  pose proof (write_item_next_id (on_item w) s (next_id s) (set_id p (next_id s))) as Hnext.
  destruct (write_item (on_item w) s (next_id s) (set_id p (next_id s))) as [[[] | e] s1];
    simpl in *.
  - destruct (on_id_tracker w), (on_hash_tracker w); simpl; lia.
  - intros _ Hq. destruct (Hw Hq) as [Hok | Hold]; [discriminate |].
    apply (Hs (next_id s) q); [lia | assumption].
Qed.

(** An item file that holds a record keeps it through every later call
    of [save_post] and every restart, as long as no file holds a record
    at or above the counter to begin with and the tracker writes go
    through. *)
Theorem items_are_kept (ops : list op) (s : state) :
  in_step s -> unused_above s -> Forall trackers_written ops ->
  forall m q, item_file s m = Holds q -> item_file (history ops s).2 m = Holds q.
Proof.
  revert s. induction ops as [| o ops IH]; intros s Hstep Hun Hops m q Hm; [assumption |].
  inversion Hops as [| ? ? Ho Hrest]; subst.
  destruct o as [w p |]; simpl.
  - destruct (save_post_in_step w p s Hstep Ho) as [Hstep' _].
    destruct (save_post_unused_above w p s Hun) as [Hun' Hkeep].
    specialize (Hkeep m q Hm).
    destruct (save_post w p s) as [[n | e] s1]; simpl in *.
    + specialize (IH s1 Hstep' Hun' Hrest m q Hkeep).
      destruct (history ops s1). assumption.
    + apply IH; assumption.
  - destruct (_setup_community_dir s) as [s1 |] eqn:Hsetup; [| assumption].
    destruct (restart_in_step s s1 Hstep Hsetup) as [Hstep' Hn].
    assert (Hfiles : item_files s1 = item_files s).
    { unfold _setup_community_dir in Hsetup.
      destruct (_load_next_id _); simpl in Hsetup; [| discriminate].
      destruct (_load_collected_hashes _); simpl in Hsetup; [| discriminate].
      injection Hsetup as <-. reflexivity. }
    apply IH; try assumption.
    + intros n p Hle. unfold item_file. rewrite Hfiles. apply Hun. lia.
    + unfold item_file. rewrite Hfiles. assumption.
Qed.

(** Without the id tracker the counter starts at 1 again, and the first
    item saved replaces whatever the file of id 1 held. *)
Theorem lost_counter_overwrites (w : faults) (p : post_data) (s0 s : state) (n : Z) :
  id_tracker_file s0 = Missing ->
  _setup_community_dir s0 = Ok s ->
  (save_post w p s).1 = Ok n ->
  n = 1%Z
  /\ item_file s 1 = item_file s0 1
  /\ item_file (save_post w p s).2 1 = Holds (set_id p 1).
Proof.
  intros Hmiss Hsetup Hn.
  destruct (save_post_ok w p s n Hn) as (Hid & _ & Hfile & _).
  unfold _setup_community_dir in Hsetup. rewrite Hmiss in Hsetup. simpl in Hsetup.
  destruct (_load_collected_hashes _); simpl in Hsetup; [| discriminate].
  injection Hsetup as <-. simpl in Hid. subst n.
  repeat split. assumption.
Qed.

(** ** Instances *)

Lemma process_accounting_witness :
  next_id (process plain_hash "2024-05-01T10:00:00" full_session two_links fresh_scope 0 0).2
  = 3%Z.
Proof.
  destruct (process_accounting plain_hash "2024-05-01T10:00:00" full_session two_links
              fresh_scope
              (process plain_hash "2024-05-01T10:00:00" full_session two_links
                 fresh_scope 0 0).2
              0 0 2 0) as (_ & _ & Hn & _).
  - vm_compute. reflexivity.
  - exact Hn.
Defined.

Lemma titleless_item_ends_batch_witness :
  process plain_hash "2024-05-01T10:00:00" (plain_session bare_page) two_links fresh_scope 0 0
  = (Raise TypeError, fresh_scope).
Proof.
  apply (titleless_item_ends_batch plain_hash "2024-05-01T10:00:00" (plain_session bare_page)
           {| url := "/a"; votes_preview := None |}
           [{| url := "/b"; votes_preview := None |}]
           fresh_scope 0 0 bare_page None); reflexivity.
Defined.

Lemma unreadable_tracker_stops_run_witness :
  harvest plain_hash "2024-05-01T10:00:00" full_session 3 garbled_scope
  = (Raise JSONDecodeError, garbled_scope).
Proof.
  apply (unreadable_tracker_stops_run plain_hash "2024-05-01T10:00:00" full_session
           3 garbled_scope).
  left. reflexivity.
Defined.

Lemma run_id_bound_witness :
  (next_id fresh_scope
   <= next_id (harvest plain_hash "2024-05-01T10:00:00" full_session 3 empty_scope).2
   <= next_id fresh_scope + Z.max 0 3)%Z.
Proof.
  apply (run_id_bound plain_hash "2024-05-01T10:00:00" full_session 3 empty_scope fresh_scope).
  reflexivity.
Defined.

Lemma blocked_listing_gives_up_witness :
  exists v,
    @collect_post_links blocked_listing plain_hash two_known 3 tt = Some ([], v)
    /\ log v = []
    /\ scroll_attempts v = 50%Z.
Proof.
  apply (@blocked_listing_gives_up blocked_listing plain_hash two_known 3 tt
           WebDriverException); [lia | reflexivity].
Defined.

Lemma exhausted_listing_returned_whole_witness :
  exists v,
    @collect_post_links static_listing plain_hash two_known 5 five_links
    = Some (collected_links v, v)
    /\ map url (collected_links v) = ["/a"; "/c"; "/e"]
    /\ scrolls (log v) = 1%nat
    /\ scroll_attempts v = 1%Z.
Proof.
  destruct (@exhausted_listing_returned_whole static_listing plain_hash two_known 5
              five_links five_links five_links 1000%Z)
    as (v & Hv & Hu & Hs & Ha);
    [lia | reflexivity | reflexivity | vm_compute; reflexivity
    | reflexivity | reflexivity | reflexivity |].
  exists v. split; [assumption |]. split; [| auto].
  rewrite Hu. vm_compute. reflexivity.
Defined.

Lemma saved_link_not_rediscovered_witness :
  exists links v,
    @collect_post_links static_listing plain_hash
      (collected_hashes (save_post no_fault full_post fresh_scope).2) 3 five_links
    = Some (links, v)
    /\ "/a" ∉ map url links.
Proof.
  destruct (@saved_link_not_rediscovered static_listing plain_hash 3
              "2024-05-01T10:00:00" (Ok (full_page (Ok tt))) "/a" None full_post
              no_fault fresh_scope (save_post no_fault full_post fresh_scope).2 1%Z
              five_links) as (_ & _ & Hd);
    [reflexivity | reflexivity | vm_compute; reflexivity |].
  exact Hd.
Defined.

Lemma saved_item_flattens_witness :
  exists r,
    Merge._process_json_file (fun _ => EmptyString) (fun _ => Ok "[...]") 1
      (load_item (Holds (set_id full_post 7))) "python"
    = (Some r, 2%Z)
    /\ Merge.title r = "A title"
    /\ Merge.description r = "Body"
    /\ Merge.votes r = "5"
    /\ Merge.url r = "/a".
Proof.
  destruct (saved_item_flattens (fun _ => EmptyString) (fun _ => Ok "[...]") plain_hash
              "2024-05-01T10:00:00" (Ok (full_page (Ok tt))) "/a" None full_post
              7 1 "python") as (r & Hr & _ & _ & Ht & Hd & Hv & Hu & _);
    [reflexivity |].
  exists r. repeat split; assumption.
Defined.

Lemma items_are_kept_witness :
  item_file (history two_saves orphaned_scope_kept).2 0
  = Holds (set_id (sample_post "/old") 0).
Proof.
  apply (items_are_kept two_saves orphaned_scope_kept).
  - reflexivity.
  - intros n p Hn. simpl in Hn. unfold item_file. simpl.
    rewrite lookup_singleton_ne by lia. discriminate.
  - repeat constructor.
  - reflexivity.
Defined.

Lemma lost_counter_overwrites_witness :
  1%Z = 1%Z
  /\ item_file orphaned_scope_loaded 1 = item_file orphaned_scope 1
  /\ item_file (save_post no_fault (sample_post "/a") orphaned_scope_loaded).2 1
     = Holds (set_id (sample_post "/a") 1).
Proof.
  apply (lost_counter_overwrites no_fault (sample_post "/a") orphaned_scope
           orphaned_scope_loaded 1); reflexivity.
Defined.
